(** * Google Classroom Smart Assistant: sync, index and QA core

    Shallow embedding of the classroom assistant.  The frontend pages
    ([frontend/src/app/...]) are translated from their TypeScript source.
    The backend service ([backend/app]: sync engine, index store, QA
    engine, HTTP endpoints) is not among the available sources; its parts
    are modelled from the specification and each such definition says so
    in its doc comment. *)

From Stdlib Require Import ZArith List String Ascii Bool Lia.
From Stdlib Require Import Sorting.Sorted Sorting.Permutation QArith_base.
Set Warnings "-register-all".
Import ListNotations.
Open Scope Z_scope.
Open Scope string_scope.

(* ------------------------------------------------------------------ *)
(** ** Frontend: assignments page, [getUrgency] *)

Module Urgency.

(** A JavaScript number as the page sees it: a finite millisecond value
    or [NaN] (what [new Date(s).getTime()] gives for an unparseable [s]). *)
Inductive jsnum := JFin (z : Z) | JNaN.

(** [a - b] with [b] finite; [NaN] propagates. *)
Definition js_sub (a : jsnum) (b : Z) : jsnum :=
  match a with JFin x => JFin (x - b) | JNaN => JNaN end.

(** [a < b]; every comparison with [NaN] is false. *)
Definition js_lt (a : jsnum) (b : Z) : bool :=
  match a with JFin x => Z.ltb x b | JNaN => false end.

(** [!dueDate] for [dueDate : string | null]: [null] and [""] are falsy. *)
Definition js_falsy (d : option string) : bool :=
  match d with None => true | Some s => String.eqb s "" end.

Definition day_ms : Z := 24 * 60 * 60 * 1000.

(** [getUrgency] of [dashboard/assignments/page.tsx]; [date_getTime]
    is [new Date(_).getTime()] and [now] is [Date.now()]. *)
Definition getUrgency (date_getTime : string -> jsnum) (now : Z)
    (dueDate : option string) : string :=
  match dueDate with
  | None => "none"
  | Some s =>
      if js_falsy dueDate then "none" else
      let diff := js_sub (date_getTime s) now in
      if js_lt diff 0 then "overdue" else
      if js_lt diff day_ms then "urgent" else
      if js_lt diff (3 * day_ms) then "soon" else
      "upcoming"
  end.

Definition urgency_values : list string :=
  ["none"; "overdue"; "urgent"; "soon"; "upcoming"].

End Urgency.

(* ------------------------------------------------------------------ *)
(** ** Index Store (modelled from the spec, section 4.3) *)

Module Index.

(** A chunk with the metadata the store keeps next to its vector: the
    owning ContentUnit (its external id, kind, title and [updated_at]),
    the owning Course, the chunk index and the unit's [content_hash] at
    chunk-creation time. *)
Record Chunk := mkChunk {
  ch_unit : string;
  ch_course : N;
  ch_kind : string;
  ch_title : string;
  ch_updated : Z;
  ch_index : nat;
  ch_hash : N;
  ch_text : string;
  ch_embedding : list Z
}.

Definition Store := list Chunk.

(** Modelled from the spec: [upsert(content_unit_id, chunks)] replaces
    all chunks of the unit in one atomic step. *)
Definition upsert (st : Store) (unit_id : string) (chunks : list Chunk) : Store :=
  (filter (fun c => negb (String.eqb (ch_unit c) unit_id)) st ++ chunks)%list.

(** Modelled from the spec: [delete_by_unit(content_unit_id)]. *)
Definition delete_by_unit (st : Store) (unit_id : string) : Store :=
  filter (fun c => negb (String.eqb (ch_unit c) unit_id)) st.

Definition chunks_of_unit (st : Store) (unit_id : string) : list Chunk :=
  filter (fun c => String.eqb (ch_unit c) unit_id) st.

Definition in_filter (access_filter : list N) (course : N) : bool :=
  existsb (N.eqb course) access_filter.

(** The ranking order of the spec: descending similarity, then most
    recent owning [updated_at], then chunk index ascending. *)
Definition cmp_ranked (a b : Chunk * Z) : comparison :=
  match Z.compare (snd b) (snd a) with
  | Eq =>
      match Z.compare (ch_updated (fst b)) (ch_updated (fst a)) with
      | Eq => Nat.compare (ch_index (fst a)) (ch_index (fst b))
      | o => o
      end
  | o => o
  end.

Definition ranked_before (a b : Chunk * Z) : Prop := cmp_ranked a b <> Gt.

Fixpoint insert_ranked (x : Chunk * Z) (l : list (Chunk * Z)) : list (Chunk * Z) :=
  match l with
  | [] => [x]
  | y :: t =>
      match cmp_ranked x y with
      | Gt => y :: insert_ranked x t
      | _ => x :: y :: t
      end
  end.

Fixpoint rank (l : list (Chunk * Z)) : list (Chunk * Z) :=
  match l with
  | [] => []
  | x :: t => insert_ranked x (rank t)
  end.

Section Search.

(** Similarity on the pinned embedding space (cosine similarity, as a
    fixed-point score); the statements below hold for any such score. *)
Variable similarity : list Z -> list Z -> Z.

Definition accessible (st : Store) (access_filter : list N) : Store :=
  filter (fun c => in_filter access_filter (ch_course c)) st.

Definition scored (query_vector : list Z) (cs : list Chunk) : list (Chunk * Z) :=
  map (fun c => (c, similarity query_vector (ch_embedding c))) cs.

(** Modelled from the spec: [search(query_vector, access_filter, top_k)];
    the access filter is a hard predicate applied before ranking. *)
Definition search (st : Store) (query_vector : list Z) (access_filter : list N)
    (top_k : nat) : list (Chunk * Z) :=
  firstn top_k (rank (scored query_vector (accessible st access_filter))).

End Search.

End Index.

(* ------------------------------------------------------------------ *)
(** ** ContentUnits and per-record reconciliation (modelled from the
    spec, sections 3 and 4.1) *)

Module Content.

Record ContentUnit := mkUnit {
  cu_ext : string;
  cu_course : N;
  cu_kind : string;
  cu_title : string;
  cu_body : string;
  cu_updated : Z;
  cu_hash : N;
  cu_deleted : bool;
  cu_dirty : bool
}.

(** One item of a remote listing page, already normalised to a fixed
    record shape at the adapter boundary. *)
Record RemoteRecord := mkRecord {
  r_ext : string;
  r_title : string;
  r_body : string;
  r_updated : Z;
  r_deleted : bool
}.

Definition find_unit (units : list ContentUnit) (ext : string) : option ContentUnit :=
  find (fun u => String.eqb (cu_ext u) ext) units.

Definition replace_unit (units : list ContentUnit) (u' : ContentUnit) : list ContentUnit :=
  map (fun u => if String.eqb (cu_ext u) (cu_ext u') then u' else u) units.

Definition clear_dirty (u : ContentUnit) : ContentUnit :=
  {| cu_ext := cu_ext u; cu_course := cu_course u; cu_kind := cu_kind u;
     cu_title := cu_title u; cu_body := cu_body u; cu_updated := cu_updated u;
     cu_hash := cu_hash u; cu_deleted := cu_deleted u; cu_dirty := false |}.

Section Reconcile.

(** [content_hash] of a body: the hash of its normalised text. *)
Variable normalized_hash : string -> N.

Definition new_unit (course : N) (kind : string) (r : RemoteRecord) : ContentUnit :=
  {| cu_ext := r_ext r; cu_course := course; cu_kind := kind;
     cu_title := r_title r; cu_body := r_body r; cu_updated := r_updated r;
     cu_hash := normalized_hash (r_body r); cu_deleted := r_deleted r;
     cu_dirty := true |}.

Definition updated_unit (u : ContentUnit) (r : RemoteRecord) : ContentUnit :=
  {| cu_ext := cu_ext u; cu_course := cu_course u; cu_kind := cu_kind u;
     cu_title := r_title r; cu_body := r_body r; cu_updated := r_updated r;
     cu_hash := normalized_hash (r_body r); cu_deleted := false;
     cu_dirty := true |}.

Definition deleted_unit (u : ContentUnit) : ContentUnit :=
  {| cu_ext := cu_ext u; cu_course := cu_course u; cu_kind := cu_kind u;
     cu_title := cu_title u; cu_body := cu_body u; cu_updated := cu_updated u;
     cu_hash := cu_hash u; cu_deleted := true; cu_dirty := true |}.

(** Modelled from the spec: per-record reconciliation (idempotent
    upsert).  No local unit: create one.  A local unit and a remote
    deletion: mark it deleted and dirty.  Otherwise compare the new
    normalised-text hash to the stored [content_hash]: skip if unchanged,
    update and mark dirty if changed.  The boolean tells whether the unit
    was marked dirty (which triggers re-chunking). *)
Definition reconcile (course : N) (kind : string) (units : list ContentUnit)
    (r : RemoteRecord) : list ContentUnit * bool :=
  match find_unit units (r_ext r) with
  | None => ((units ++ [new_unit course kind r])%list, true)
  | Some u =>
      if r_deleted r then
        if cu_deleted u then (units, false)
        else (replace_unit units (deleted_unit u), true)
      else if N.eqb (normalized_hash (r_body r)) (cu_hash u) then (units, false)
      else (replace_unit units (updated_unit u r), true)
  end.

(** Reconciles the records of one page in order; returns the units and
    the external ids marked dirty. *)
Fixpoint reconcile_page (course : N) (kind : string) (units : list ContentUnit)
    (page : list RemoteRecord) : list ContentUnit * list string :=
  match page with
  | [] => (units, [])
  | r :: rest =>
      let '(u1, d) := reconcile course kind units r in
      let '(u2, ds) := reconcile_page course kind u1 rest in
      (u2, if d then r_ext r :: ds else ds)
  end.

(** The local state already reflects a remote record. *)
Definition agrees_rec (U : list ContentUnit) (r : RemoteRecord) : Prop :=
  exists u, find_unit U (r_ext r) = Some u /\
    (if r_deleted r then cu_deleted u = true else cu_hash u = normalized_hash (r_body r)).

End Reconcile.

End Content.

(* ------------------------------------------------------------------ *)
(** ** Chunker and indexing of dirty units (modelled from the spec,
    sections 4.2 and 4.3) *)

Module Indexer.
Import Index Content.

(** Fixed configuration: window size and overlap, in characters. *)
Definition window_size : nat := 400.
Definition window_overlap : nat := 50.
Definition window_step : nat := window_size - window_overlap.

(** Overlapping windows [(index, text)] starting at [pos]. *)
Fixpoint windows (fuel idx pos : nat) (text : string) : list (nat * string) :=
  match fuel with
  | O => []
  | S f =>
      if Nat.ltb pos (String.length text)
      then (idx, substring pos window_size text) :: windows f (S idx) (pos + window_step) text
      else []
  end.

Section Chunker.

(** The single pinned embedding model. *)
Variable embed : string -> list Z.

(** Modelled from the spec: the chunks that replace a dirty unit's
    chunks; empty for a deleted unit. *)
Definition chunk_unit (u : ContentUnit) : list Chunk :=
  if cu_deleted u then []
  else map (fun iw => mkChunk (cu_ext u) (cu_course u) (cu_kind u) (cu_title u)
                              (cu_updated u) (fst iw) (cu_hash u) (snd iw)
                              (embed (snd iw)))
           (windows (String.length (cu_body u)) 0 0 (cu_body u)).

(** Modelled from the spec: a dirty unit is re-indexed by one atomic
    store operation, [delete_by_unit] when deleted, [upsert] otherwise. *)
Definition index_unit (st : Store) (u : ContentUnit) : Store :=
  if cu_deleted u then delete_by_unit st (cu_ext u)
  else upsert st (cu_ext u) (chunk_unit u).

(** The store states a concurrent query can observe: each re-indexing is
    one atomic step. *)
Inductive reachable (st0 : Store) : Store -> Prop :=
| reach_init : reachable st0 st0
| reach_step st u : reachable st0 st -> reachable st0 (index_unit st u).

End Chunker.

(** No unit has chunks of two different [content_hash]es. *)
Definition unmixed (st : Store) : Prop :=
  forall c1 c2, In c1 st -> In c2 st -> ch_unit c1 = ch_unit c2 -> ch_hash c1 = ch_hash c2.

Definition unmixed_hits (hits : list (Chunk * Z)) : Prop :=
  forall a b, In a hits -> In b hits ->
    ch_unit (fst a) = ch_unit (fst b) -> ch_hash (fst a) = ch_hash (fst b).

End Indexer.

(* ------------------------------------------------------------------ *)
(** ** JSON bodies of the HTTP surface *)

Module Json.

Inductive json :=
| JNull
| JBool (b : bool)
| JNum (q : Q)
| JStr (s : string)
| JArr (l : list json)
| JObj (fields : list (string * json)).

(** [data.key] on a parsed body; [None] is [undefined]. *)
Definition json_get (key : string) (j : json) : option json :=
  match j with
  | JObj fs =>
      match find (fun kv => String.eqb (fst kv) key) fs with
      | Some kv => Some (snd kv)
      | None => None
      end
  | _ => None
  end.

(** An HTTP response: status code and JSON body. *)
Definition response := (nat * json)%type.

End Json.

(* ------------------------------------------------------------------ *)
(** ** Sync Engine (modelled from the spec, section 4.1) *)

Module Sync.
Import Content Json.

Inductive content_type := Assignments | Announcements | Materials | Submissions.

Definition content_types : list content_type :=
  [Assignments; Announcements; Materials; Submissions].

Definition ct_eqb (a b : content_type) : bool :=
  match a, b with
  | Assignments, Assignments | Announcements, Announcements
  | Materials, Materials | Submissions, Submissions => true
  | _, _ => false
  end.

Definition kind_of (ct : content_type) : string :=
  match ct with
  | Assignments => "assignment"
  | Announcements => "announcement"
  | Materials => "material"
  | Submissions => "submission"
  end.

(** [list_page(course_id, content_type, cursor)] of the Remote Client
    Adapter; [None] as cursor is the first page. *)
Record PageResponse := mkPage {
  items : list RemoteRecord;
  next_cursor : option N;
  rate_limited : bool;
  auth_expired : bool
}.

(** The remote side: the answer to the [attempt]-th try of a page. *)
Definition Remote := N -> content_type -> option N -> nat -> PageResponse.

(** Per-course persisted state: its ContentUnits and one sync cursor per
    content type. *)
Record CourseState := mkCourseState {
  cs_units : list ContentUnit;
  cs_cursor : content_type -> option N
}.

Inductive SyncError :=
| ErrRateLimited (ct : content_type) (cursor : option N)
| ErrAuthExpired (ct : content_type) (cursor : option N).

Inductive RunStatus := Succeeded | Partial | Failed.

Record SyncRun := mkRun {
  run_course : N;
  run_status : RunStatus;
  run_counts : list (content_type * nat);
  run_errors : list SyncError
}.

(** What the run did: the pages requested and the pages committed. *)
Record Trace := mkTrace {
  tr_fetched : list (content_type * option N);
  tr_committed : list (content_type * option N * list RemoteRecord)
}.

Record SyncResult := mkResult {
  res_state : CourseState;
  res_run : SyncRun;
  res_trace : Trace
}.

Inductive FetchOutcome := FOk (p : PageResponse) | FExhausted | FAuthFailed.

Inductive TypeOutcome :=
| TDone | TPaused | TExhausted (cursor : option N) | TAuthFailed (cursor : option N).

(** Configuration constants. *)
Definition max_attempts : nat := 5.
Definition max_pages : nat := 1000.

Definition set_cursor (st : CourseState) (ct : content_type) (v : option N) : CourseState :=
  {| cs_units := cs_units st;
     cs_cursor := fun t => if ct_eqb t ct then v else cs_cursor st t |}.

Definition log_fetch (tr : Trace) (ct : content_type) (cur : option N) : Trace :=
  {| tr_fetched := (tr_fetched tr ++ [(ct, cur)])%list; tr_committed := tr_committed tr |}.

Definition log_commit (tr : Trace) (ct : content_type) (cur : option N)
    (rs : list RemoteRecord) : Trace :=
  {| tr_fetched := tr_fetched tr; tr_committed := (tr_committed tr ++ [(ct, cur, rs)])%list |}.

Definition empty_trace : Trace := {| tr_fetched := []; tr_committed := [] |}.

Fixpoint count_type (ct : content_type) (l : list (content_type * option N * list RemoteRecord)) : nat :=
  match l with
  | [] => 0
  | (t, _, rs) :: rest =>
      ((if ct_eqb t ct then List.length rs else 0) + count_type ct rest)%nat
  end.

Section Engine.

Variable normalized_hash : string -> N.
Variable remote : Remote.

(** Fetching one page with the bounded retry policy: a rate-limit signal
    backs off (exponential delay with jitter, elided: only the attempt
    count matters) and retries; an auth-expiry signal triggers one token
    refresh and a retry, a second one fails. *)
Fixpoint fetch_page (c : N) (ct : content_type) (cur : option N)
    (n attempt : nat) (refreshed : bool) : FetchOutcome :=
  match n with
  | O => FExhausted
  | S n' =>
      let p := remote c ct cur attempt in
      if auth_expired p then
        if refreshed then FAuthFailed else fetch_page c ct cur n' (S attempt) true
      else if rate_limited p then fetch_page c ct cur n' (S attempt) refreshed
      else FOk p
  end.

(** Commits a page: its records are reconciled and the cursor advances
    in the same transaction. *)
Definition commit_page (c : N) (ct : content_type) (st : CourseState)
    (rs : list RemoteRecord) (next : option N) : CourseState :=
  {| cs_units := fst (reconcile_page normalized_hash c (kind_of ct) (cs_units st) rs);
     cs_cursor := fun t => if ct_eqb t ct then next else cs_cursor st t |}.

(** Pages of one content type, resuming from the stored cursor. *)
Fixpoint sync_type (c : N) (ct : content_type) (pages : nat) (st : CourseState)
    (tr : Trace) : CourseState * Trace * TypeOutcome :=
  match pages with
  | O => (st, tr, TPaused)
  | S p =>
      let cur := cs_cursor st ct in
      let tr1 := log_fetch tr ct cur in
      match fetch_page c ct cur max_attempts 0 false with
      | FOk r =>
          let st1 := commit_page c ct st (items r) (next_cursor r) in
          let tr2 := log_commit tr1 ct cur (items r) in
          match next_cursor r with
          | None => (st1, tr2, TDone)
          | Some _ => sync_type c ct p st1 tr2
          end
      | FExhausted => (st, tr1, TExhausted cur)
      | FAuthFailed => (st, tr1, TAuthFailed cur)
      end
  end.

(** The content types in order; an exhausted type is recorded and the
    run moves on, an auth failure aborts the run. *)
Fixpoint sync_types (c : N) (cts : list content_type) (st : CourseState)
    (tr : Trace) (errs : list SyncError) : CourseState * Trace * list SyncError * bool :=
  match cts with
  | [] => (st, tr, errs, false)
  | ct :: rest =>
      match sync_type c ct max_pages st tr with
      | (st1, tr1, TExhausted cur) => sync_types c rest st1 tr1 (errs ++ [ErrRateLimited ct cur])%list
      | (st1, tr1, TAuthFailed cur) => (st1, tr1, (errs ++ [ErrAuthExpired ct cur])%list, true)
      | (st1, tr1, _) => sync_types c rest st1 tr1 errs
      end
  end.

(** Modelled from the spec: [sync(course_id) -> SyncRun]. *)
Definition sync (c : N) (st : CourseState) : SyncResult :=
  let '(st', tr, errs, aborted) := sync_types c content_types st empty_trace [] in
  {| res_state := st';
     res_run := {| run_course := c;
                   run_status := if aborted then Failed
                                 else match errs with [] => Succeeded | _ => Partial end;
                   run_counts := map (fun ct => (ct, count_type ct (tr_committed tr))) content_types;
                   run_errors := errs |};
     res_trace := tr |}.

(** One run per accessible course, in order. *)
Fixpoint sync_courses (courses : list N) (states : N -> CourseState)
    : (N -> CourseState) * list SyncRun :=
  match courses with
  | [] => (states, [])
  | c :: rest =>
      let res := sync c (states c) in
      let states' := fun c' => if N.eqb c' c then res_state res else states c' in
      let '(states'', runs) := sync_courses rest states' in
      (states'', res_run res :: runs)
  end.

End Engine.

Record SyncSummary := mkSummary {
  courses_synced : nat;
  assignments_synced : nat;
  failures : list (N * list SyncError)
}.

Definition run_failed (r : SyncRun) : bool :=
  match run_status r with Failed => true | _ => false end.

Definition assignments_of (r : SyncRun) : nat :=
  match find (fun p => ct_eqb (fst p) Assignments) (run_counts r) with
  | Some (_, n) => n
  | None => 0
  end.

(** Modelled from the spec: the aggregate over the runs, failures
    enumerated. *)
Definition summarize (runs : list SyncRun) : SyncSummary :=
  {| courses_synced := List.length (filter (fun r => negb (run_failed r)) runs);
     assignments_synced := fold_right (fun r acc => (assignments_of r + acc)%nat) 0%nat runs;
     failures := map (fun r => (run_course r, run_errors r))
                     (filter (fun r => match run_errors r with [] => false | _ => true end) runs) |}.

Definition error_json (e : SyncError) : json :=
  match e with
  | ErrRateLimited ct _ => JObj [("content_type", JStr (kind_of ct)); ("error", JStr "rate_limited")]
  | ErrAuthExpired ct _ => JObj [("content_type", JStr (kind_of ct)); ("error", JStr "auth_expired")]
  end.

Definition summary_json (s : SyncSummary) : json :=
  JObj [("courses_synced", JNum (inject_Z (Z.of_nat (courses_synced s))));
        ("assignments_synced", JNum (inject_Z (Z.of_nat (assignments_synced s))));
        ("failures", JArr (map (fun f => JObj [("course_id", JNum (inject_Z (Z.of_N (fst f))));
                                               ("errors", JArr (map error_json (snd f)))])
                               (failures s)))].

(** Modelled from the spec: [POST /courses/sync]. *)
Definition sync_endpoint (normalized_hash : string -> N) (remote : Remote)
    (courses : list N) (states : N -> CourseState) : (N -> CourseState) * response :=
  let '(states', runs) := sync_courses normalized_hash remote courses states in
  (states', (200%nat, summary_json (summarize runs))).

(** Observations on a run: the committed pages' records are all present
    as local units; the cursors a run fetched [ct] from, in order. *)
Definition committed_present (st : CourseState) (tr : Trace) : Prop :=
  forall t k rs r, In (t, k, rs) (tr_committed tr) -> In r rs ->
    In (r_ext r) (map cu_ext (cs_units st)).

Definition fetched_of (ct : content_type) (l : list (content_type * option N)) : list (option N) :=
  map snd (filter (fun e => ct_eqb (fst e) ct) l).

End Sync.

(* ------------------------------------------------------------------ *)
(** ** Retrieval QA Engine and [POST /qa] (modelled from the spec,
    sections 4.4 and 6), and the QA page that reads the response *)

Module QA.
Import Index Json.

(** K of the top-K retrieval. *)
Definition top_K : nat := 5.

Definition newline : string := String (Ascii.ascii_of_nat 10) EmptyString.

Definition no_content_text : string :=
  "No relevant content found in your courses for this question.".

Definition no_content_explanation : string :=
  "No indexed course content matched the question.".

Record Source := mkSource {
  src_type : string;
  src_title : string;
  src_excerpt : string;
  src_relevance : Z
}.

(** Scores and confidence are fixed-point values in thousandths. *)
Record QAResponse := mkResponse {
  answer_text : string;
  confidence : Z;
  sources : list Source;
  explanation : string
}.

Definition no_content_response : QAResponse :=
  {| answer_text := no_content_text; confidence := 0; sources := [];
     explanation := no_content_explanation |}.

(** Bounding to [0, 1]. *)
Definition clamp_conf (z : Z) : Z := Z.max 0 (Z.min 1000 z).

Definition excerpt (s : string) : string := substring 0 200 s.

Definition source_of (h : Chunk * Z) : Source :=
  {| src_type := ch_kind (fst h); src_title := ch_title (fst h);
     src_excerpt := excerpt (ch_text (fst h)); src_relevance := snd h |}.

Section Engine.

(** The pinned embedding model, the similarity on its space, the
    confidence weighting of the top-K scores and the rule-based
    explanation: the spec fixes their roles, not their formulas. *)
Variable embed : string -> list Z.
Variable similarity : list Z -> list Z -> Z.
Variable raw_confidence : list Z -> Z.
Variable explain : list Z -> Z -> string.

(** Modelled from the spec: [answer(question_text, access_filter)]. *)
Definition answer (st : Store) (question_text : string) (access_filter : list N) : QAResponse :=
  let hits := search similarity st (embed question_text) access_filter top_K in
  match hits with
  | [] => no_content_response
  | _ =>
      let conf := clamp_conf (raw_confidence (map snd hits)) in
      {| answer_text := String.concat newline (map (fun h => ch_text (fst h)) hits);
         confidence := conf;
         sources := map source_of hits;
         explanation := explain (map snd hits) conf |}
  end.

Definition milli (z : Z) : Q := Qmake z 1000.

Definition source_json (s : Source) : json :=
  JObj [("type", JStr (src_type s)); ("title", JStr (src_title s));
        ("excerpt", JStr (src_excerpt s)); ("relevance_score", JNum (milli (src_relevance s)))].

Definition response_json (r : QAResponse) : json :=
  JObj [("answer", JStr (answer_text r)); ("confidence", JNum (milli (confidence r)));
        ("sources", JArr (map source_json (sources r))); ("explanation", JStr (explanation r))].

(** Modelled from the spec: [POST /qa] with body [{question: string}];
    the access filter is the asking user's accessible-course set. *)
Definition qa_endpoint (st : Store) (user_courses : list N) (body : json) : response :=
  match json_get "question" body with
  | Some (JStr q) => (200%nat, response_json (answer st q user_courses))
  | _ => (422%nat, JObj [("detail", JStr "question must be a string")])
  end.

End Engine.

(** The assistant [Message] built by [askMutation.onSuccess] of the QA
    page ([src/unnamed/part_002]): each field is [data.<key>], [None]
    standing for [undefined]. *)
Record Message := mkMessage {
  m_content : option json;
  m_confidence : option json;
  m_sources : option json;
  m_explanation : option json
}.

Definition assistant_message (data : json) : Message :=
  {| m_content := json_get "answer" data;
     m_confidence := json_get "confidence" data;
     m_sources := json_get "sources" data;
     m_explanation := json_get "explanation" data |}.

(** The [Source] interface of the QA page. *)
Definition source_shaped (j : json) : Prop :=
  exists t ti ex rs,
    j = JObj [("type", JStr t); ("title", JStr ti); ("excerpt", JStr ex);
              ("relevance_score", JNum rs)].

End QA.

(* ------------------------------------------------------------------ *)
(** ** Sample data used by the concrete checks below *)

Module Samples.
Import Index.

(** Two chunks of different units of course 1, equal on every ranking
    key (score, [updated_at], chunk index). *)
Definition chunk_a : Chunk :=
  mkChunk "unit-a" 1 "assignment" "Lab 3" 100 0 7 "Lab 3 is due Friday" [1; 0].
Definition chunk_b : Chunk :=
  mkChunk "unit-b" 1 "announcement" "Lab 3 reminder" 100 0 9 "Lab 3 is due Friday" [1; 0].

(** A chunk of course 2. *)
Definition chunk_c : Chunk :=
  mkChunk "unit-c" 2 "material" "Syllabus" 50 0 3 "Grading policy" [0; 1].

(** A similarity that scores every pair alike, and a dot product. *)
Definition flat_similarity (_ _ : list Z) : Z := 500.
Definition dot_similarity (q e : list Z) : Z :=
  fold_right Z.add 0 (map (fun p => fst p * snd p) (combine q e)).

(** A ContentUnit before and after its remote text changed. *)
Definition unit_v1 : Content.ContentUnit :=
  Content.mkUnit "lab3" 1 "assignment" "Lab 3" "Lab 3 is due Friday" 100 11 false true.
Definition unit_v2 : Content.ContentUnit :=
  Content.mkUnit "lab3" 1 "assignment" "Lab 3" "Lab 3 is due Monday" 200 12 false true.

(** An embedding by text length, and a hash of a body by its length. *)
Definition length_embed (s : string) : list Z := [Z.of_nat (String.length s)].
Definition length_hash (s : string) : N := N.of_nat (String.length s).

(** A remote page of two records. *)
Definition page_1 : list Content.RemoteRecord :=
  [Content.mkRecord "lab3" "Lab 3" "Lab 3 is due Friday" 100 false;
   Content.mkRecord "quiz1" "Quiz 1" "Quiz on Tuesday" 90 false].

(** Spec scenario 3: page 1 of assignments is served, page 2 stays
    rate limited on every attempt; other content types are empty. *)
Definition remote_rate_limited : Sync.Remote :=
  fun _ ct cur _ =>
    match ct, cur with
    | Sync.Assignments, None =>
        Sync.mkPage [Content.mkRecord "lab3" "Lab 3" "Lab 3 is due Friday" 100 false]
                    (Some 2%N) false false
    | Sync.Assignments, Some _ => Sync.mkPage [] None true false
    | _, _ => Sync.mkPage [] None false false
    end.

(** The same remote once the rate limit has lifted. *)
Definition remote_recovered : Sync.Remote :=
  fun _ ct cur _ =>
    match ct, cur with
    | Sync.Assignments, None =>
        Sync.mkPage [Content.mkRecord "lab3" "Lab 3" "Lab 3 is due Friday" 100 false]
                    (Some 2%N) false false
    | Sync.Assignments, Some _ =>
        Sync.mkPage [Content.mkRecord "quiz1" "Quiz 1" "Quiz on Tuesday" 90 false] None false false
    | _, _ => Sync.mkPage [] None false false
    end.

Definition fresh_course : Sync.CourseState := Sync.mkCourseState [] (fun _ => None).

End Samples.

(* ------------------------------------------------------------------ *)
(** ** Frontend: JavaScript values read from a parsed response body *)

Module JsValue.
Import Json.

(** A JavaScript value the pages read off [res.json()]: [undefined] or a
    JSON value. *)
Inductive jsv := JUndef | JV (j : json).

(** An own property of an object built by [JSON.parse]: of duplicate
    keys the last one wins. *)
Definition obj_lookup (fs : list (string * json)) (k : string) : option json :=
  fold_left (fun acc kv => if String.eqb (fst kv) k then Some (snd kv) else acc) fs None.

(** [v?.k] for the property names the pages read (none of them an array
    index or an [Object.prototype] member): [undefined] and [null] give
    [undefined]; arrays and strings (one code unit per character) have a
    [length]; numbers and booleans have no own properties. *)
Definition js_prop (v : jsv) (k : string) : jsv :=
  match v with
  | JUndef | JV JNull => JUndef
  | JV (JObj fs) => match obj_lookup fs k with Some j => JV j | None => JUndef end
  | JV (JArr l) =>
      if String.eqb k "length" then JV (JNum (inject_Z (Z.of_nat (List.length l)))) else JUndef
  | JV (JStr s) =>
      if String.eqb k "length" then JV (JNum (inject_Z (Z.of_nat (String.length s)))) else JUndef
  | JV _ => JUndef
  end.

(** JavaScript truthiness. *)
Definition js_truthy (v : jsv) : bool :=
  match v with
  | JUndef | JV JNull => false
  | JV (JBool b) => b
  | JV (JNum q) => negb (Qeq_bool q 0)
  | JV (JStr s) => negb (String.eqb s "")
  | JV (JArr _) | JV (JObj _) => true
  end.

(** The outcome of [ToNumber]: a number, [NaN], or a thrown [TypeError]. *)
Inductive numres := NNum (q : Q) | NNaN | NThrow.

Section Conv.

(** [ToNumber] of a string, and of an array (through its [toString]). *)
Variable str_to_num : string -> numres.
Variable arr_to_num : list json -> numres.

(** [ToNumber]; a plain object converts through
    [Object.prototype.toString] to [NaN], and throws when an own
    [toString] key (never callable in JSON) shadows it. *)
Definition to_number (v : jsv) : numres :=
  match v with
  | JUndef => NNaN
  | JV JNull => NNum 0
  | JV (JBool b) => NNum (if b then 1 else 0)
  | JV (JNum q) => NNum q
  | JV (JStr s) => str_to_num s
  | JV (JArr l) => arr_to_num l
  | JV (JObj fs) => match obj_lookup fs "toString" with Some _ => NThrow | None => NNaN end
  end.

(** [v > c] and [v >= c] against a number literal [c]; [None] is a throw. *)
Definition js_gt (v : jsv) (c : Q) : option bool :=
  match to_number v with NNum q => Some (negb (Qle_bool q c)) | NNaN => Some false | NThrow => None end.

Definition js_ge (v : jsv) (c : Q) : option bool :=
  match to_number v with NNum q => Some (Qle_bool c q) | NNaN => Some false | NThrow => None end.

(** What a page renders from
    [isLoading ? <skeleton> : data?.key?.length > 0 ? data.key.map(...) : <empty state>];
    [.map] exists only on arrays, anything else throws. *)
Inductive list_view := ShowLoading | ShowList (items : list json) | ShowEmpty | ShowCrash.

Definition list_branch (is_loading : bool) (data : jsv) (key : string) : list_view :=
  if is_loading then ShowLoading else
  let field := js_prop data key in
  match js_gt (js_prop field "length") 0 with
  | None => ShowCrash
  | Some false => ShowEmpty
  | Some true => match field with JV (JArr l) => ShowList l | _ => ShowCrash end
  end.

End Conv.

End JsValue.

(* ------------------------------------------------------------------ *)
(** ** Frontend: the urgency badge of [dashboard/assignments/page.tsx] *)

Module AssignmentsPage.
Import Urgency.





Section Badge.

(** [String.prototype.toUpperCase]. *)
Variable to_upper : string -> string.


End Badge.

End AssignmentsPage.

(* ------------------------------------------------------------------ *)
(** ** Frontend: the sync banner of [dashboard/courses/page.tsx] *)

Module CoursesPage.
Import Json JsValue.

Section Banner.

(** [String(n)] for a number. *)
Variable num_to_string : Q -> string.






End Banner.

End CoursesPage.

(* ------------------------------------------------------------------ *)
(** ** Frontend: the QA page ([unnamed/part_002]) *)

Module QAPage.
Import Json JsValue.

Inductive role := RoleUser | RoleAssistant.

(** A [Message]; the [timestamp] is not modelled. *)
Record ChatMessage := mkChat {
  role_of : role;
  content : jsv;
  msg_confidence : jsv;
  msg_sources : jsv;
  msg_explanation : jsv
}.

(** The page state between renders: [messages], [input], the mutation's
    [isPending], and the questions passed to [askMutation.mutate]. *)
Record QAState := mkQA {
  messages : list ChatMessage;
  input : string;
  is_pending : bool;
  sent : list string
}.

Definition qa_init : QAState := mkQA [] "" false [].

(** [String.prototype.trim] on code units below 256: it strips tab, line
    feed, vertical tab, form feed, carriage return, space and no-break
    space. *)
Definition js_ws (c : ascii) : bool :=
  let n := nat_of_ascii c in
  (Nat.leb 9 n && Nat.leb n 13) || Nat.eqb n 32 || Nat.eqb n 160.

Fixpoint trim_left (l : list ascii) : list ascii :=
  match l with
  | c :: r => if js_ws c then trim_left r else l
  | [] => []
  end.

Definition js_trim (s : string) : string :=
  string_of_list_ascii (rev (trim_left (rev (trim_left (list_ascii_of_string s))))).

(** The user's message for a question. *)
Definition user_message (q : string) : ChatMessage :=
  mkChat RoleUser (JV (JStr q)) JUndef JUndef JUndef.

(** [handleSubmit]. *)
Definition handleSubmit (s : QAState) : QAState :=
  if String.eqb (js_trim (input s)) "" || is_pending s then s
  else mkQA (messages s ++ [user_message (input s)])%list
            "" true (sent s ++ [input s])%list.

(** [askMutation]'s [onSuccess]: [data] is whatever [res.json()] gave,
    for any HTTP status. *)
Definition assistant_of (data : json) : ChatMessage :=
  mkChat RoleAssistant (js_prop (JV data) "answer") (js_prop (JV data) "confidence")
         (js_prop (JV data) "sources") (js_prop (JV data) "explanation").

Definition on_success (data : json) (s : QAState) : QAState :=
  mkQA (messages s ++ [assistant_of data])%list (input s) false (sent s).






Section Colour.

Variable str_to_num : string -> numres.
Variable arr_to_num : list json -> numres.

(** [confidenceColor]; [None] is a throw. *)
Definition confidenceColor (conf : jsv) : option string :=
  match js_ge str_to_num arr_to_num conf (3 # 4) with
  | None => None
  | Some true => Some "text-green-400"
  | Some false =>
      match js_ge str_to_num arr_to_num conf (1 # 2) with
      | None => None
      | Some true => Some "text-yellow-400"
      | Some false => Some "text-red-400"
      end
  end.

(** [msg.confidence || 0]. *)
Definition or_zero (v : jsv) : jsv := if js_truthy v then v else JV (JNum 0).

Definition message_colour (m : ChatMessage) : option string :=
  confidenceColor (or_zero (msg_confidence m)).

End Colour.

(** [copyToClipboard]'s check mark: [copiedId] and the pending
    [setTimeout] callbacks (fire times, in order). *)
Record CopyState := mkCopy { copiedId : option nat; timers : list Z }.

Definition copy_init : CopyState := mkCopy None [].

(** Runs the callbacks due by time [T]; each sets [copiedId] to [null]. *)
Fixpoint fire_due (T : Z) (ts : list Z) (c : option nat) : option nat * list Z :=
  match ts with
  | [] => (c, [])
  | t :: r => if Z.leb t T then fire_due T r None else (c, ts)
  end.

Definition advance (T : Z) (s : CopyState) : CopyState :=
  let '(c, ts) := fire_due T (timers s) (copiedId s) in mkCopy c ts.

Definition copyToClipboard (t : Z) (id : nat) (s : CopyState) : CopyState :=
  let s1 := advance t s in mkCopy (Some id) (timers s1 ++ [t + 2000])%list.

(** The message whose check mark shows at time [T]. *)
Definition copied_at (T : Z) (s : CopyState) : option nat := copiedId (advance T s).

End QAPage.

(* ------------------------------------------------------------------ *)
(** ** Frontend: authentication and theme state of [providers.tsx] *)

Module Providers.
Import Json.

(** [localStorage]: string keys to string values. *)
Definition Storage := list (string * string).

Definition st_get (m : Storage) (k : string) : option string :=
  match find (fun kv => String.eqb (fst kv) k) m with Some kv => Some (snd kv) | None => None end.

Definition st_remove (m : Storage) (k : string) : Storage :=
  filter (fun kv => negb (String.eqb (fst kv) k)) m.

Definition st_set (m : Storage) (k v : string) : Storage := (st_remove m k ++ [(k, v)])%list.

(** Truthiness of [getItem]'s result: [null] and [""] are falsy. *)
Definition truthy_str (o : option string) : bool :=
  match o with Some s => negb (String.eqb s "") | None => false end.

(** The provider's state ([user] is [null] as [JNull]), the [dark] class
    of the document element, and [localStorage]. *)
Record App := mkApp {
  a_user : json;
  a_token : option string;
  a_loading : bool;
  a_theme : string;
  a_dark : bool;
  a_store : Storage
}.

(** A fresh page load: the initial state over the stored data. *)
Definition page_load (store : Storage) (dark0 : bool) : App :=
  mkApp JNull None true "dark" dark0 store.

Section Provider.

(** [JSON.parse] ([None] when it throws) and [JSON.stringify]. *)
Variable parse : string -> option json.
Variable stringify : json -> string.

(** The mount effect; [None] when [JSON.parse] throws. *)
Definition mount (a : App) : option App :=
  let store := a_store a in
  let storedToken := st_get store "access_token" in
  let storedUser := st_get store "user" in
  let storedTheme := st_get store "theme" in
  let restored :=
    if truthy_str storedToken && truthy_str storedUser then
      match storedUser with
      | Some u => match parse u with
                  | Some uj => Some (mkApp uj storedToken (a_loading a) (a_theme a) (a_dark a) store)
                  | None => None
                  end
      | None => None
      end
    else Some a in
  match restored with
  | None => None
  | Some a1 =>
      let a2 := match storedTheme with
                | Some th => if truthy_str storedTheme
                             then mkApp (a_user a1) (a_token a1) (a_loading a1) th (String.eqb th "dark") store
                             else mkApp (a_user a1) (a_token a1) (a_loading a1) (a_theme a1) true store
                | None => mkApp (a_user a1) (a_token a1) (a_loading a1) (a_theme a1) true store
                end in
      Some (mkApp (a_user a2) (a_token a2) false (a_theme a2) (a_dark a2) store)
  end.

Definition reload (store : Storage) (dark0 : bool) : option App := mount (page_load store dark0).

(** [login]: the tokens are stored at once, the user when [/auth/me]
    answers. *)
Definition login (newToken refreshToken : string) (a : App) : App :=
  mkApp (a_user a) (Some newToken) (a_loading a) (a_theme a) (a_dark a)
        (st_set (st_set (a_store a) "access_token" newToken) "refresh_token" refreshToken).

(** The [/auth/me] answer, whatever its status. *)
Definition me_resolved (userData : json) (a : App) : App :=
  mkApp userData (a_token a) (a_loading a) (a_theme a) (a_dark a)
        (st_set (a_store a) "user" (stringify userData)).

End Provider.

Definition logout (a : App) : App :=
  mkApp JNull None (a_loading a) (a_theme a) (a_dark a)
        (st_remove (st_remove (st_remove (a_store a) "access_token") "refresh_token") "user").

Definition toggleTheme (a : App) : App :=
  let newTheme := if String.eqb (a_theme a) "light" then "dark" else "light" in
  mkApp (a_user a) (a_token a) (a_loading a) newTheme (String.eqb newTheme "dark")
        (st_set (a_store a) "theme" newTheme).

End Providers.

(* ------------------------------------------------------------------ *)
(** ** Frontend: the OAuth callback page ([unnamed/part_001]) *)

Module AuthCallback.
Import Providers.

(** The effect's decision: the [login] arguments, if any, and the route
    pushed; [get] is [searchParams.get] ([None] is [null]). *)
Definition auth_callback (get : string -> option string) : option (string * string) * string :=
  let accessToken := get "access_token" in
  let refreshToken := get "refresh_token" in
  let error := get "error" in
  if truthy_str error then
    (None, ("/login?error=" ++ match error with Some e => e | None => "" end)%string)
  else
    match accessToken, refreshToken with
    | Some at_, Some rt =>
        if truthy_str accessToken && truthy_str refreshToken
        then (Some (at_, rt), "/dashboard") else (None, "/login")
    | _, _ => (None, "/login")
    end.

(** The effect run against the provider. *)
Definition callback_effect (get : string -> option string) (a : App) : App * string :=
  match auth_callback get with
  | (Some (t, r), route) => (login t r a, route)
  | (None, route) => (a, route)
  end.

End AuthCallback.

(* ------------------------------------------------------------------ *)
(** ** Frontend: the sidebar of [dashboard/layout.tsx] *)

Module DashboardLayout.

Definition navHrefs : list string :=
  ["/dashboard"; "/dashboard/courses"; "/dashboard/assignments"; "/dashboard/qa";
   "/dashboard/analytics"; "/dashboard/reminders"; "/dashboard/reports"].

(** The items drawn as active: [pathname === item.href]. *)
Definition active_items (pathname : string) : list string :=
  filter (fun href => String.eqb pathname href) navHrefs.

End DashboardLayout.

(* ================================================================== *)
(** * Properties *)

(* ------------------------------------------------------------------ *)
(** ** Index Store search *)

Module IndexFacts.
Import Index.

Lemma cmp_ranked_gt_lt a b : cmp_ranked a b = Gt -> cmp_ranked b a = Lt.
Proof.
  unfold cmp_ranked.
  rewrite (Z.compare_antisym (snd b) (snd a)).
  rewrite (Z.compare_antisym (ch_updated (fst b)) (ch_updated (fst a))).
  rewrite (Nat.compare_antisym (ch_index (fst a)) (ch_index (fst b))).
  destruct (Z.compare (snd b) (snd a)); simpl; try (intro; discriminate); auto.
  destruct (Z.compare (ch_updated (fst b)) (ch_updated (fst a))); simpl;
    try (intro; discriminate); auto.
  destruct (Nat.compare (ch_index (fst a)) (ch_index (fst b))); simpl;
    try (intro; discriminate); auto.
Qed.

Lemma insert_ranked_perm x l : Permutation (insert_ranked x l) (x :: l).
Proof.
  induction l as [|y t IH]; simpl; [auto|].
  destruct (cmp_ranked x y); auto.
  eapply perm_trans; [apply perm_skip, IH | apply perm_swap].
Qed.

Lemma rank_perm l : Permutation (rank l) l.
Proof.
  induction l as [|x t IH]; simpl; [auto|].
  eapply perm_trans; [apply insert_ranked_perm | auto].
Qed.

Lemma insert_ranked_hdrel y x l :
  HdRel ranked_before y l -> ranked_before y x -> HdRel ranked_before y (insert_ranked x l).
Proof.
  intros Hd Hyx. destruct l as [|z t]; simpl.
  - constructor; exact Hyx.
  - destruct (cmp_ranked x z); constructor; auto; inversion Hd; auto.
Qed.

Lemma insert_ranked_sorted x l :
  Sorted ranked_before l -> Sorted ranked_before (insert_ranked x l).
Proof.
  induction l as [|y t IH]; intros Hs; simpl.
  - repeat constructor.
  - destruct (cmp_ranked x y) eqn:E.
    + constructor; [exact Hs | constructor; unfold ranked_before; rewrite E; discriminate].
    + constructor; [exact Hs | constructor; unfold ranked_before; rewrite E; discriminate].
    + inversion Hs; subst. constructor; [apply IH; assumption|].
      apply insert_ranked_hdrel; [assumption|].
      unfold ranked_before. rewrite (cmp_ranked_gt_lt _ _ E). discriminate.
Qed.

Lemma rank_sorted l : Sorted ranked_before (rank l).
Proof.
  induction l; simpl; [constructor | apply insert_ranked_sorted; assumption].
Qed.

Lemma firstn_sorted {A} (R : A -> A -> Prop) k l : Sorted R l -> Sorted R (firstn k l).
Proof.
  revert l; induction k as [|k IH]; intros l Hs; simpl; [constructor|].
  destruct l as [|x t]; [constructor|].
  inversion Hs; subst. constructor; [apply IH; assumption|].
  destruct k; simpl; [constructor|]. destruct t; simpl; [constructor|].
  inversion H2; subst. constructor; assumption.
Qed.

Lemma in_filter_In flt c : in_filter flt c = true <-> In c flt.
Proof.
  unfold in_filter. rewrite existsb_exists. split.
  - intros [x [Hx E]]. apply N.eqb_eq in E. subst. exact Hx.
  - intros H. exists c. split; [exact H | apply N.eqb_refl].
Qed.

Lemma in_firstn {A} k (l : list A) x : In x (firstn k l) -> In x l.
Proof.
  revert l; induction k as [|k IH]; intros [|y t]; simpl; try tauto.
  intros [H|H]; [left; exact H | right; apply IH; exact H].
Qed.

Lemma search_in sim st q flt k x :
  In x (search sim st q flt k) ->
  In (fst x) st /\ In (ch_course (fst x)) flt /\ snd x = sim q (ch_embedding (fst x)).
Proof.
  unfold search. intros H. apply in_firstn in H.
  apply (Permutation_in _ (rank_perm _)) in H.
  unfold scored, accessible in H. apply in_map_iff in H as [c [E Hc]]. subst x.
  apply filter_In in Hc as [Hc Hf]. apply in_filter_In in Hf. simpl. auto.
Qed.

Lemma ranked_before_iff a b :
  ranked_before a b <->
  snd b < snd a \/
  (snd b = snd a /\ (ch_updated (fst b) < ch_updated (fst a) \/
    (ch_updated (fst b) = ch_updated (fst a) /\ (ch_index (fst a) <= ch_index (fst b))%nat))).
Proof.
  unfold ranked_before, cmp_ranked.
  destruct (Z.compare_spec (snd b) (snd a)) as [E1|E1|E1];
  [destruct (Z.compare_spec (ch_updated (fst b)) (ch_updated (fst a))) as [E2|E2|E2];
   [destruct (Nat.compare_spec (ch_index (fst a)) (ch_index (fst b))) as [E3|E3|E3]| |] | |];
  split; intros H; try lia; try discriminate; try (exfalso; apply H; reflexivity).
Qed.

Lemma ranked_before_trans a b c :
  ranked_before a b -> ranked_before b c -> ranked_before a c.
Proof. rewrite !ranked_before_iff. lia. Qed.

Lemma strongly_sorted_app {A} (R : A -> A -> Prop) l1 l2 x y :
  StronglySorted R (l1 ++ l2) -> In x l1 -> In y l2 -> R x y.
Proof.
  induction l1 as [|z t IH]; simpl; [tauto|].
  intros Hs [E|Hx] Hy; inversion Hs; subst.
  - rewrite Forall_forall in H2. apply H2, in_or_app. right; exact Hy.
  - apply IH; assumption.
Qed.

End IndexFacts.

(* ------------------------------------------------------------------ *)
(** ** Claims about the Index Store *)

Module IndexClaims.
Import Index IndexFacts.

(** C1. Access isolation: every chunk returned by
    [search(query_vector, access_filter, top_k)] belongs to a Course of
    [access_filter], whatever the similarity scores; a chunk of a course
    the filter excludes never appears. *)
Theorem search_access_isolation (similarity : list Z -> list Z -> Z) (st : Store)
    (query_vector : list Z) (access_filter : list N) (top_k : nat) (hit : Chunk * Z) :
  In hit (search similarity st query_vector access_filter top_k) ->
  In (ch_course (fst hit)) access_filter.
Proof. intros H. apply (search_in _ _ _ _ _ _ H). Qed.

(** C7 (amended). [search] returns [min top_k n] chunks, [n] the number
    of accessible chunks (so exactly [top_k] when at least [top_k]
    accessible ones exist); they come in ranking order (descending
    similarity, then most recent [updated_at], then chunk index
    ascending), and together with the accessible chunks left out they
    are all the accessible chunks, each left-out chunk ranking no higher
    than every returned one.  Chunks equal on all three keys are not
    ordered by them. *)
Theorem search_top_k_ranked (similarity : list Z -> list Z -> Z) (st : Store)
    (query_vector : list Z) (access_filter : list N) (top_k : nat) :
  let hits := search similarity st query_vector access_filter top_k in
  List.length hits = Nat.min top_k (List.length (accessible st access_filter)) /\
  Sorted ranked_before hits /\
  exists rest,
    Permutation (hits ++ rest) (scored similarity query_vector (accessible st access_filter)) /\
    forall x y, In x hits -> In y rest -> ranked_before x y.
Proof.
  cbv zeta. unfold search.
  set (L := rank (scored similarity query_vector (accessible st access_filter))).
  assert (HP : Permutation L (scored similarity query_vector (accessible st access_filter)))
    by apply rank_perm.
  split; [|split].
  - rewrite length_firstn, (Permutation_length HP). unfold scored. rewrite length_map. reflexivity.
  - apply firstn_sorted, rank_sorted.
  - exists (skipn top_k L). split.
    + rewrite firstn_skipn. exact HP.
    + intros x y Hx Hy.
      assert (HS : StronglySorted ranked_before L).
      { apply Sorted_StronglySorted; [exact ranked_before_trans | apply rank_sorted]. }
      rewrite <- (firstn_skipn top_k L) in HS.
      exact (strongly_sorted_app _ _ _ _ _ HS Hx Hy).
Qed.

(** C1 witness: a query with filter [[1]] over a store holding chunks of
    courses 1 and 2 only returns chunks of course 1. *)
Lemma search_access_isolation_witness :
  let hits := search Samples.dot_similarity [Samples.chunk_c; Samples.chunk_a] [1; 0] [1%N] 5 in
  In (Samples.chunk_a, 1) hits /\ In (ch_course Samples.chunk_a) [1%N].
Proof.
  split.
  - vm_compute. left. reflexivity.
  - apply (search_access_isolation Samples.dot_similarity
             [Samples.chunk_c; Samples.chunk_a] [1; 0] [1%N] 5 (Samples.chunk_a, 1)).
    vm_compute. left. reflexivity.
Defined.

(** C7 counterexample: [chunk_a] and [chunk_b] are distinct chunks that
    tie on similarity, [updated_at] and chunk index, so the ranking keys
    do not order them: with [top_k = 1] the chunk returned depends on the
    order in which the store holds them. *)
Lemma search_tie_not_total_order :
  cmp_ranked (Samples.chunk_a, 500) (Samples.chunk_b, 500) = Eq /\
  Samples.chunk_a <> Samples.chunk_b /\
  search Samples.flat_similarity [Samples.chunk_a; Samples.chunk_b] [] [1%N] 1 =
    [(Samples.chunk_a, 500)] /\
  search Samples.flat_similarity [Samples.chunk_b; Samples.chunk_a] [] [1%N] 1 =
    [(Samples.chunk_b, 500)].
Proof.
  split; [reflexivity|]. split; [discriminate|]. split; vm_compute; reflexivity.
Qed.

End IndexClaims.

(* ------------------------------------------------------------------ *)
(** ** Claims about the assignments page *)

Module UrgencyClaims.
Import Urgency.

Lemma getUrgency_fin date_getTime now s t :
  s <> "" -> date_getTime s = JFin t ->
  getUrgency date_getTime now (Some s) =
    if Z.ltb (t - now) 0 then "overdue" else
    if Z.ltb (t - now) day_ms then "urgent" else
    if Z.ltb (t - now) (3 * day_ms) then "soon" else "upcoming".
Proof.
  intros Hs Ht. unfold getUrgency, js_falsy.
  destruct (String.eqb_spec s "") as [E|_]; [contradiction|].
  rewrite Ht. reflexivity.
Qed.

(** C10 (amended). [getUrgency] always returns one of the five values.
    It returns ['none'] exactly when [due_date] is null or the empty
    string.  For any other string whose date parses to a time [t], with
    [diff = t - now]: ['overdue'] iff [diff < 0], ['urgent'] iff
    [0 <= diff < 24h], ['soon'] iff [24h <= diff < 3 days], ['upcoming']
    iff [diff >= 3 days].  An unparseable date ([NaN]) gives
    ['upcoming']. *)
Theorem getUrgency_classes (date_getTime : string -> jsnum) (now : Z)
    (dueDate : option string) :
  In (getUrgency date_getTime now dueDate) urgency_values /\
  (getUrgency date_getTime now dueDate = "none" <-> dueDate = None \/ dueDate = Some "") /\
  (forall s t, dueDate = Some s -> s <> "" -> date_getTime s = JFin t ->
     (getUrgency date_getTime now dueDate = "overdue" <-> t - now < 0) /\
     (getUrgency date_getTime now dueDate = "urgent" <-> 0 <= t - now < day_ms) /\
     (getUrgency date_getTime now dueDate = "soon" <-> day_ms <= t - now < 3 * day_ms) /\
     (getUrgency date_getTime now dueDate = "upcoming" <-> 3 * day_ms <= t - now)) /\
  (forall s, dueDate = Some s -> s <> "" -> date_getTime s = JNaN ->
     getUrgency date_getTime now dueDate = "upcoming").
Proof.
  destruct dueDate as [s|].
  2:{ simpl. split; [left; reflexivity|]. split; [split; auto|].
      split; [intros ? ? E | intros ? E]; discriminate E. }
  destruct (String.eqb_spec s "") as [->|Hne].
  { simpl. split; [left; reflexivity|]. split; [split; auto|].
    split; [intros s' ? E | intros s' E]; injection E as <-; intros Hne;
      contradiction Hne; reflexivity. }
  destruct (date_getTime s) as [t|] eqn:Ht.
  - rewrite (getUrgency_fin _ _ _ _ Hne Ht). unfold day_ms.
    assert (Hcl : forall s' t', Some s = Some s' -> s' <> "" -> date_getTime s' = JFin t' -> t' = t).
    { intros s' t' E _ E'. injection E as <-. rewrite Ht in E'. injection E' as ->. reflexivity. }
    destruct (Z.ltb_spec (t - now) 0); [|destruct (Z.ltb_spec (t - now) (24 * 60 * 60 * 1000));
      [|destruct (Z.ltb_spec (t - now) (3 * (24 * 60 * 60 * 1000)))]];
    (split; [simpl; tauto|]);
    (split; [split; [discriminate | intros [E|E]; [discriminate E | injection E as E; contradiction]]|]);
    (split; [intros s' t' E1 E2 E3; pose proof (Hcl _ _ E1 E2 E3) as ->;
             repeat split; intros; try discriminate; try reflexivity; lia
            | intros s' E1 _ E3; injection E1 as <-; rewrite Ht in E3; discriminate E3]).
  - unfold getUrgency, js_falsy.
    destruct (String.eqb_spec s "") as [E|_]; [contradiction|]. rewrite Ht. simpl.
    split; [simpl; tauto|].
    split; [split; [discriminate | intros [E|E]; [discriminate E | injection E as E; contradiction]]|].
    split.
    + intros s' t' E1 _ E3. injection E1 as <-. rewrite Ht in E3. discriminate E3.
    + intros. reflexivity.
Qed.

(** C10 counterexample: the empty string is a non-null [due_date]
    ([new Date("")] is an Invalid Date, [getTime()] is [NaN]), yet it is
    classified ['none'], not one of the four due-date classes. *)
Lemma getUrgency_empty_string_none :
  getUrgency (fun _ => JNaN) 0 (Some "") = "none" /\
  ~ In "none" ["overdue"; "urgent"; "soon"; "upcoming"].
Proof.
  split; [reflexivity|]. simpl. intros [E|[E|[E|[E|[]]]]]; discriminate E.
Qed.

End UrgencyClaims.

(* ------------------------------------------------------------------ *)
(** ** Re-indexing a unit *)

Module IndexerClaims.
Import Index Content Indexer IndexFacts.

Lemma chunk_unit_meta embed u c :
  In c (chunk_unit embed u) -> ch_unit c = cu_ext u /\ ch_hash c = cu_hash u.
Proof.
  unfold chunk_unit. destruct (cu_deleted u); [intros []|].
  intros H. apply in_map_iff in H as [iw [<- _]]. simpl. auto.
Qed.

Lemma filter_other_units st id :
  filter (fun c => String.eqb (ch_unit c) id)
         (filter (fun c => negb (String.eqb (ch_unit c) id)) st) = [].
Proof.
  induction st as [|c t IH]; simpl; [reflexivity|].
  destruct (String.eqb (ch_unit c) id) eqn:E; simpl; [exact IH|]. rewrite E. exact IH.
Qed.

Lemma filter_all_unit (l : list Chunk) id :
  (forall c, In c l -> ch_unit c = id) ->
  filter (fun c => String.eqb (ch_unit c) id) l = l.
Proof.
  induction l as [|c t IH]; intros H; simpl; [reflexivity|].
  rewrite (H c (or_introl eq_refl)), String.eqb_refl. f_equal.
  apply IH. intros x Hx. apply H. right. exact Hx.
Qed.

Lemma chunks_of_unit_index embed st u :
  chunks_of_unit (index_unit embed st u) (cu_ext u) = chunk_unit embed u.
Proof.
  unfold chunks_of_unit, index_unit, delete_by_unit, upsert.
  destruct (cu_deleted u) eqn:D.
  - rewrite filter_other_units. unfold chunk_unit. rewrite D. reflexivity.
  - rewrite filter_app, filter_other_units. simpl.
    apply filter_all_unit. intros c Hc. apply (chunk_unit_meta _ _ _ Hc).
Qed.

Lemma in_index_unit embed st u c :
  In c (index_unit embed st u) ->
  (In c st /\ ch_unit c <> cu_ext u) \/ In c (chunk_unit embed u).
Proof.
  unfold index_unit, delete_by_unit, upsert.
  assert (Hf : In c (filter (fun c => negb (String.eqb (ch_unit c) (cu_ext u))) st) ->
               In c st /\ ch_unit c <> cu_ext u).
  { intros H. apply filter_In in H as [H1 H2]. split; [exact H1|].
    apply negb_true_iff, String.eqb_neq in H2. exact H2. }
  destruct (cu_deleted u); intros H.
  - left. apply Hf, H.
  - apply in_app_or in H as [H|H]; [left; apply Hf, H | right; exact H].
Qed.

Lemma index_unit_unmixed embed st u : unmixed st -> unmixed (index_unit embed st u).
Proof.
  intros Hst c1 c2 H1 H2 E.
  apply in_index_unit in H1 as [[H1 N1]|H1]; apply in_index_unit in H2 as [[H2 N2]|H2].
  - apply Hst; assumption.
  - apply chunk_unit_meta in H2 as [U2 _]. congruence.
  - apply chunk_unit_meta in H1 as [U1 _]. congruence.
  - apply chunk_unit_meta in H1 as [_ K1]. apply chunk_unit_meta in H2 as [_ K2]. congruence.
Qed.

Lemma reachable_unmixed embed st0 st : unmixed st0 -> reachable embed st0 st -> unmixed st.
Proof.
  intros H0 R. induction R; [exact H0 | apply index_unit_unmixed; assumption].
Qed.

Lemma search_unmixed sim st q flt k : unmixed st -> unmixed_hits (search sim st q flt k).
Proof.
  intros H a b Ha Hb E.
  apply search_in in Ha as [Ha _]. apply search_in in Hb as [Hb _]. apply H; assumption.
Qed.

(** C2. Re-indexing a unit whose [content_hash] changed replaces its
    chunk set as a whole: afterwards the unit's chunks are exactly the
    newly generated ones, all carrying the new hash (so none with the old
    hash is left); and since each re-indexing is one atomic store step,
    in every store state a query can observe, and in every search result,
    no unit has chunks of two different hashes. *)
Theorem reindex_replaces_whole_unit (embed : string -> list Z) (st0 st : Store)
    (u : ContentUnit) :
  unmixed st0 -> reachable embed st0 st ->
  chunks_of_unit (index_unit embed st u) (cu_ext u) = chunk_unit embed u /\
  (forall c, In c (index_unit embed st u) -> ch_unit c = cu_ext u -> ch_hash c = cu_hash u) /\
  unmixed st /\ unmixed (index_unit embed st u) /\
  (forall similarity query_vector access_filter top_k,
     unmixed_hits (search similarity st query_vector access_filter top_k) /\
     unmixed_hits (search similarity (index_unit embed st u) query_vector access_filter top_k)).
Proof.
  intros H0 R.
  pose proof (reachable_unmixed _ _ _ H0 R) as Hst.
  pose proof (index_unit_unmixed embed _ u Hst) as Hst'.
  split; [apply chunks_of_unit_index|].
  split.
  { intros c Hc E. apply in_index_unit in Hc as [[_ N]|Hc]; [contradiction|].
    apply (chunk_unit_meta _ _ _ Hc). }
  split; [exact Hst|]. split; [exact Hst'|].
  intros. split; apply search_unmixed; assumption.
Qed.

(** C2 witness: from the empty store, index [unit_v1], then re-index the
    unit with its changed text [unit_v2]. *)
Lemma reindex_replaces_whole_unit_witness :
  unmixed [] /\
  reachable Samples.length_embed [] (index_unit Samples.length_embed [] Samples.unit_v1) /\
  chunks_of_unit (index_unit Samples.length_embed
                    (index_unit Samples.length_embed [] Samples.unit_v1) Samples.unit_v2) "lab3" =
    chunk_unit Samples.length_embed Samples.unit_v2.
Proof.
  assert (H0 : unmixed []) by (intros ? ? []).
  assert (R : reachable Samples.length_embed [] (index_unit Samples.length_embed [] Samples.unit_v1))
    by (apply reach_step, reach_init).
  split; [exact H0|]. split; [exact R|].
  exact (proj1 (reindex_replaces_whole_unit Samples.length_embed [] _ Samples.unit_v2 H0 R)).
Defined.

End IndexerClaims.

(* ------------------------------------------------------------------ *)
(** ** Reconciliation *)

Module ContentFacts.
Import Content.

Section Facts.
Variable h : string -> N.
Variable course : N.
Variable kind : string.

Lemma find_unit_some U x u : find_unit U x = Some u -> cu_ext u = x /\ In u U.
Proof.
  unfold find_unit. intros H. apply find_some in H as [H1 H2].
  apply String.eqb_eq in H2. auto.
Qed.

Lemma find_unit_none U x : find_unit U x = None -> ~ In x (map cu_ext U).
Proof.
  unfold find_unit. intros H Hin. apply in_map_iff in Hin as [u [E Hu]].
  pose proof (find_none _ _ H u Hu) as F. simpl in F. rewrite E, String.eqb_refl in F.
  discriminate F.
Qed.

Lemma find_unit_app U l x u : find_unit U x = Some u -> find_unit (U ++ l) x = Some u.
Proof.
  unfold find_unit. induction U as [|a t IH]; simpl; [discriminate|].
  destruct (String.eqb (cu_ext a) x); [auto | exact IH].
Qed.

Lemma find_unit_app_none U n x :
  find_unit U x = None -> find_unit (U ++ [n]) x = if String.eqb (cu_ext n) x then Some n else None.
Proof.
  unfold find_unit. induction U as [|a t IH]; simpl; [destruct (String.eqb (cu_ext n) x); auto|].
  destruct (String.eqb (cu_ext a) x); [discriminate | exact IH].
Qed.

Lemma find_unit_replace_other U u' x :
  x <> cu_ext u' -> find_unit (replace_unit U u') x = find_unit U x.
Proof.
  intros Hx. unfold find_unit, replace_unit.
  induction U as [|a t IH]; simpl; [reflexivity|].
  destruct (String.eqb_spec (cu_ext a) (cu_ext u')) as [E|E]; simpl.
  - destruct (String.eqb_spec (cu_ext u') x); [congruence|].
    destruct (String.eqb_spec (cu_ext a) x); [congruence | exact IH].
  - destruct (String.eqb (cu_ext a) x); [reflexivity | exact IH].
Qed.

Lemma find_unit_replace_same U u' :
  In (cu_ext u') (map cu_ext U) -> find_unit (replace_unit U u') (cu_ext u') = Some u'.
Proof.
  unfold find_unit, replace_unit.
  induction U as [|a t IH]; simpl; [intros []|]. intros Hin.
  destruct (String.eqb_spec (cu_ext a) (cu_ext u')) as [E|E]; simpl.
  - rewrite String.eqb_refl. reflexivity.
  - destruct (String.eqb_spec (cu_ext a) (cu_ext u')); [contradiction|].
    apply IH. destruct Hin as [Hin|Hin]; [contradiction | exact Hin].
Qed.

Lemma map_ext_replace U u' :
  (forall u, In u U -> cu_ext u = cu_ext u' -> True) ->
  map cu_ext (replace_unit U u') = map cu_ext U.
Proof.
  intros _. unfold replace_unit. rewrite map_map. apply map_ext. intros a.
  destruct (String.eqb_spec (cu_ext a) (cu_ext u')); congruence.
Qed.

Lemma nodup_snoc (l : list string) x : NoDup l -> ~ In x l -> NoDup (l ++ [x]).
Proof.
  intros H Hx. apply (Permutation_NoDup (Permutation_cons_append l x)).
  constructor; assumption.
Qed.

Lemma reconcile_skip U r : agrees_rec h U r -> reconcile h course kind U r = (U, false).
Proof.
  intros [u [F A]]. unfold reconcile. rewrite F.
  destruct (r_deleted r); [rewrite A; reflexivity|].
  rewrite A, N.eqb_refl. reflexivity.
Qed.

Lemma reconcile_agrees U r : agrees_rec h (fst (reconcile h course kind U r)) r.
Proof.
  unfold reconcile. destruct (find_unit U (r_ext r)) as [u|] eqn:F.
  - pose proof (find_unit_some _ _ _ F) as [Eu Iu].
    assert (Hin : In (cu_ext u) (map cu_ext U)) by (apply in_map; exact Iu).
    destruct (r_deleted r) eqn:D.
    + destruct (cu_deleted u) eqn:Du; simpl.
      * exists u. rewrite D. auto.
      * exists (deleted_unit u). rewrite D. split; [|reflexivity].
        rewrite <- Eu. apply (find_unit_replace_same U (deleted_unit u)). exact Hin.
    + destruct (N.eqb_spec (h (r_body r)) (cu_hash u)) as [E|E]; simpl.
      * exists u. rewrite D. auto.
      * exists (updated_unit h u r). rewrite D. split; [|reflexivity].
        rewrite <- Eu. apply (find_unit_replace_same U (updated_unit h u r)). exact Hin.
  - simpl. exists (new_unit h course kind r). rewrite (find_unit_app_none _ _ _ F). simpl.
    rewrite String.eqb_refl. split; [reflexivity|]. destruct (r_deleted r); reflexivity.
Qed.

Lemma reconcile_agrees_other U r r' :
  r_ext r' <> r_ext r -> agrees_rec h U r' -> agrees_rec h (fst (reconcile h course kind U r)) r'.
Proof.
  intros Hne [u' [F' A']]. exists u'. split; [|exact A'].
  unfold reconcile. destruct (find_unit U (r_ext r)) as [u|] eqn:F.
  - pose proof (find_unit_some _ _ _ F) as [Eu _].
    destruct (r_deleted r); [destruct (cu_deleted u)|destruct (N.eqb (h (r_body r)) (cu_hash u))];
      simpl; try exact F'; rewrite find_unit_replace_other; simpl; congruence.
  - simpl. apply find_unit_app. exact F'.
Qed.

Lemma reconcile_nodup U r :
  NoDup (map cu_ext U) -> NoDup (map cu_ext (fst (reconcile h course kind U r))).
Proof.
  intros H. unfold reconcile. destruct (find_unit U (r_ext r)) as [u|] eqn:F.
  - destruct (r_deleted r); [destruct (cu_deleted u)|destruct (N.eqb (h (r_body r)) (cu_hash u))];
      simpl; try exact H; rewrite map_ext_replace; auto.
  - simpl. rewrite map_app. simpl. apply nodup_snoc; [exact H|]. apply find_unit_none, F.
Qed.

Lemma reconcile_page_fst U r rest :
  fst (reconcile_page h course kind U (r :: rest)) =
  fst (reconcile_page h course kind (fst (reconcile h course kind U r)) rest).
Proof.
  simpl. destruct (reconcile h course kind U r) as [u1 d]. simpl.
  destruct (reconcile_page h course kind u1 rest). reflexivity.
Qed.

Lemma page_agrees_other page U r' :
  ~ In (r_ext r') (map r_ext page) -> agrees_rec h U r' ->
  agrees_rec h (fst (reconcile_page h course kind U page)) r'.
Proof.
  revert U. induction page as [|r rest IH]; intros U Hn A; [exact A|].
  rewrite reconcile_page_fst. simpl in Hn. apply IH; [tauto|].
  apply reconcile_agrees_other; [intros E; apply Hn; left; congruence | exact A].
Qed.

Lemma page_agrees page U :
  NoDup (map r_ext page) ->
  forall r, In r page -> agrees_rec h (fst (reconcile_page h course kind U page)) r.
Proof.
  revert U. induction page as [|r0 rest IH]; intros U Hnd r Hr; [destruct Hr|].
  rewrite reconcile_page_fst. simpl in Hnd. inversion Hnd as [|? ? Hn Hnd']; subst.
  destruct Hr as [<-|Hr].
  - apply page_agrees_other; [exact Hn | apply reconcile_agrees].
  - apply IH; assumption.
Qed.

Lemma page_nodup page U :
  NoDup (map cu_ext U) -> NoDup (map cu_ext (fst (reconcile_page h course kind U page))).
Proof.
  revert U. induction page as [|r rest IH]; intros U H; [exact H|].
  rewrite reconcile_page_fst. apply IH, reconcile_nodup, H.
Qed.

Lemma page_skip page U :
  (forall r, In r page -> agrees_rec h U r) -> reconcile_page h course kind U page = (U, []).
Proof.
  induction page as [|r rest IH]; intros A; simpl; [reflexivity|].
  rewrite (reconcile_skip U r (A r (or_introl eq_refl))).
  rewrite IH; [reflexivity|]. intros r' Hr'. apply A. right. exact Hr'.
Qed.

Lemma find_unit_clear_dirty U x :
  find_unit (map clear_dirty U) x = option_map clear_dirty (find_unit U x).
Proof.
  unfold find_unit. induction U as [|a t IH]; simpl; [reflexivity|].
  destruct (String.eqb (cu_ext a) x); [reflexivity | exact IH].
Qed.

Lemma agrees_clear_dirty U r : agrees_rec h U r -> agrees_rec h (map clear_dirty U) r.
Proof.
  intros [u [F A]]. exists (clear_dirty u).
  rewrite find_unit_clear_dirty, F. split; [reflexivity|]. exact A.
Qed.

End Facts.

End ContentFacts.

Module ContentClaims.
Import Content ContentFacts.

(** C3. Syncing the same remote page twice is idempotent.  Starting from
    local units with one unit per external id, and for a remote page
    listing each item once: after the first reconciliation there is
    exactly one local unit per external id of the page (no duplicates);
    reconciling the page again changes nothing and marks no unit dirty
    (no re-embedding, no chunk replacement), also after the indexer has
    cleared the dirty flags in between; and a record whose
    normalised-text hash equals the stored [content_hash] is skipped. *)
Theorem sync_page_twice_idempotent (normalized_hash : string -> N) (course : N)
    (kind : string) (units : list ContentUnit) (page : list RemoteRecord) :
  NoDup (map cu_ext units) -> NoDup (map r_ext page) ->
  let u1 := fst (reconcile_page normalized_hash course kind units page) in
  NoDup (map cu_ext u1) /\
  (forall r, In r page -> In (r_ext r) (map cu_ext u1)) /\
  reconcile_page normalized_hash course kind u1 page = (u1, []) /\
  reconcile_page normalized_hash course kind (map clear_dirty u1) page = (map clear_dirty u1, []) /\
  (forall U r u, find_unit U (r_ext r) = Some u -> r_deleted r = false ->
     normalized_hash (r_body r) = cu_hash u ->
     reconcile normalized_hash course kind U r = (U, false)).
Proof.
  intros HU HP u1.
  pose proof (page_agrees normalized_hash course kind page units HP) as A.
  split; [apply page_nodup, HU|].
  split.
  { intros r Hr. destruct (A r Hr) as [u [F _]].
    apply find_unit_some in F as [E Iu]. rewrite <- E. apply in_map, Iu. }
  split; [apply page_skip, A|].
  split; [apply page_skip; intros r Hr; apply agrees_clear_dirty, A, Hr|].
  intros U r u F D E. apply reconcile_skip. exists u. rewrite D. auto.
Qed.

(** C3 witness: [page_1] synced twice into an empty course. *)
Lemma sync_page_twice_idempotent_witness :
  NoDup (map cu_ext (@nil ContentUnit)) /\ NoDup (map r_ext Samples.page_1) /\
  let u1 := fst (reconcile_page Samples.length_hash 1 "assignment" [] Samples.page_1) in
  reconcile_page Samples.length_hash 1 "assignment" u1 Samples.page_1 = (u1, []).
Proof.
  assert (H1 : NoDup (map cu_ext (@nil ContentUnit))) by constructor.
  assert (H2 : NoDup (map r_ext Samples.page_1)).
  { simpl. constructor; [simpl; intros [E|[]]; discriminate E|]. constructor; [intros []|constructor]. }
  split; [exact H1|]. split; [exact H2|].
  exact (proj1 (proj2 (proj2 (sync_page_twice_idempotent Samples.length_hash 1 "assignment"
                                 [] Samples.page_1 H1 H2)))).
Defined.

End ContentClaims.

(* ------------------------------------------------------------------ *)
(** ** Claims about the QA engine and [POST /qa] *)

Module QAClaims.
Import Index Json QA.

Lemma accessible_nil st : accessible st [] = [].
Proof. induction st as [|c t IH]; simpl; [reflexivity | exact IH]. Qed.

Lemma search_nil_filter sim st q k : search sim st q [] k = [].
Proof. unfold search. rewrite accessible_nil. simpl. destruct k; reflexivity. Qed.

Lemma confidence_bounds embed sim rawc expl st q flt :
  0 <= confidence (answer embed sim rawc expl st q flt) <= 1000.
Proof.
  unfold answer. destruct (search sim st (embed q) flt top_K); simpl; [lia|].
  unfold clamp_conf. lia.
Qed.

Lemma milli_unit z : 0 <= z <= 1000 -> Qle 0 (milli z) /\ Qle (milli z) 1.
Proof. intros H. unfold milli, Qle. simpl. lia. Qed.

(** C4. Whenever the index search returns no chunk, [answer] gives the
    fixed "no relevant content found" response with confidence 0, and
    [POST /qa] returns it with status 200, not an error.  With an empty
    access filter the search is always empty, so the response is that
    same fixed one whatever the store holds: it does not reveal whether
    matching content exists. *)
Theorem qa_no_content_answer (embed : string -> list Z) (similarity : list Z -> list Z -> Z)
    (raw_confidence : list Z -> Z) (explain : list Z -> Z -> string)
    (st : Store) (question_text : string) (access_filter : list N) :
  search similarity st (embed question_text) access_filter top_K = [] ->
  answer embed similarity raw_confidence explain st question_text access_filter = no_content_response /\
  confidence (answer embed similarity raw_confidence explain st question_text access_filter) = 0 /\
  qa_endpoint embed similarity raw_confidence explain st access_filter
    (JObj [("question", JStr question_text)]) = (200%nat, response_json no_content_response) /\
  (forall st' : Store,
     qa_endpoint embed similarity raw_confidence explain st' []
       (JObj [("question", JStr question_text)]) = (200%nat, response_json no_content_response)).
Proof.
  intros H.
  assert (A : answer embed similarity raw_confidence explain st question_text access_filter
              = no_content_response) by (unfold answer; rewrite H; reflexivity).
  split; [exact A|]. split; [rewrite A; reflexivity|].
  split; [unfold qa_endpoint; simpl; rewrite A; reflexivity|].
  intros st'. unfold qa_endpoint, answer. simpl. rewrite search_nil_filter. reflexivity.
Qed.

(** C4 witness: an empty store answers any question with the fixed
    no-content response. *)
Lemma qa_no_content_answer_witness :
  search Samples.dot_similarity [] (Samples.length_embed "when is Lab 3 due?") [1%N] top_K = [] /\
  confidence (answer Samples.length_embed Samples.dot_similarity (fun _ => 800)
                (fun _ _ => "") [] "when is Lab 3 due?" [1%N]) = 0.
Proof.
  assert (H : search Samples.dot_similarity [] (Samples.length_embed "when is Lab 3 due?") [1%N] top_K = [])
    by reflexivity.
  split; [exact H|].
  exact (proj1 (proj2 (qa_no_content_answer Samples.length_embed Samples.dot_similarity
                         (fun _ => 800) (fun _ _ => "") [] "when is Lab 3 due?" [1%N] H))).
Defined.

(** C8. For every question string, [POST /qa] with body
    [{question: string}] answers with status 200 and an object of exactly
    the keys [answer] (a string), [confidence] (a number in [0, 1]),
    [sources] (a list of [{type, title, excerpt, relevance_score}]) and
    [explanation] (a string); the QA page's [onSuccess] reads every field
    of its [Message] from it. *)
Theorem qa_response_shape (embed : string -> list Z) (similarity : list Z -> list Z -> Z)
    (raw_confidence : list Z -> Z) (explain : list Z -> Z -> string)
    (st : Store) (user_courses : list N) (question : string) :
  exists a conf srcs e,
    qa_endpoint embed similarity raw_confidence explain st user_courses
      (JObj [("question", JStr question)]) =
      (200%nat, JObj [("answer", JStr a); ("confidence", JNum conf);
                      ("sources", JArr srcs); ("explanation", JStr e)]) /\
    Qle 0 conf /\ Qle conf 1 /\
    Forall source_shaped srcs /\
    assistant_message (JObj [("answer", JStr a); ("confidence", JNum conf);
                             ("sources", JArr srcs); ("explanation", JStr e)]) =
      {| m_content := Some (JStr a); m_confidence := Some (JNum conf);
         m_sources := Some (JArr srcs); m_explanation := Some (JStr e) |}.
Proof.
  set (r := answer embed similarity raw_confidence explain st question user_courses).
  exists (answer_text r), (milli (confidence r)), (map source_json (sources r)), (explanation r).
  pose proof (milli_unit _ (confidence_bounds embed similarity raw_confidence explain st
                              question user_courses)) as [B1 B2].
  split; [reflexivity|]. split; [exact B1|]. split; [exact B2|].
  split; [|reflexivity].
  apply Forall_forall. intros j Hj. apply in_map_iff in Hj as [s [<- _]].
  unfold source_json, source_shaped. eauto.
Qed.

End QAClaims.

(* ------------------------------------------------------------------ *)
(** ** Sync Engine *)

Module SyncFacts.
Import Content ContentFacts Sync.

Lemma ct_eqb_spec a b : ct_eqb a b = true <-> a = b.
Proof. destruct a, b; simpl; split; intros H; congruence. Qed.

Lemma ct_eqb_refl a : ct_eqb a a = true.
Proof. apply ct_eqb_spec. reflexivity. Qed.

Lemma ct_eqb_neq a b : a <> b -> ct_eqb a b = false.
Proof. intros H. destruct (ct_eqb a b) eqn:E; [apply ct_eqb_spec in E; contradiction | reflexivity]. Qed.

Section Facts.
Variable h : string -> N.
Variable remote : Remote.
Variable c : N.

Lemma reconcile_mono kind U r x :
  In x (map cu_ext U) -> In x (map cu_ext (fst (reconcile h c kind U r))).
Proof.
  intros Hx. unfold reconcile. destruct (find_unit U (r_ext r)) as [u|].
  - destruct (r_deleted r); [destruct (cu_deleted u)|destruct (N.eqb (h (r_body r)) (cu_hash u))];
      simpl; try exact Hx; rewrite map_ext_replace; auto.
  - simpl. rewrite map_app. apply in_or_app. left. exact Hx.
Qed.

Lemma reconcile_adds kind U r : In (r_ext r) (map cu_ext (fst (reconcile h c kind U r))).
Proof.
  destruct (reconcile_agrees h c kind U r) as [u [F _]].
  apply find_unit_some in F as [E Iu]. rewrite <- E. apply in_map, Iu.
Qed.

Lemma reconcile_page_mono kind rs : forall U x,
  In x (map cu_ext U) -> In x (map cu_ext (fst (reconcile_page h c kind U rs))).
Proof.
  induction rs as [|r rest IH]; intros U x Hx; [exact Hx|].
  rewrite reconcile_page_fst. apply IH, reconcile_mono, Hx.
Qed.

Lemma reconcile_page_adds kind rs : forall U r,
  In r rs -> In (r_ext r) (map cu_ext (fst (reconcile_page h c kind U rs))).
Proof.
  induction rs as [|r0 rest IH]; intros U r Hr; [destruct Hr|].
  rewrite reconcile_page_fst. destruct Hr as [<-|Hr].
  - apply reconcile_page_mono, reconcile_adds.
  - apply IH, Hr.
Qed.

Lemma commit_page_cursor ct st rs next t :
  cs_cursor (commit_page h c ct st rs next) t = if ct_eqb t ct then next else cs_cursor st t.
Proof. reflexivity. Qed.

Lemma sync_type_fetched ct pages : forall st tr,
  exists F,
    tr_fetched (snd (fst (sync_type h remote c ct pages st tr))) = (tr_fetched tr ++ F)%list /\
    (forall e, In e F -> fst e = ct) /\
    (pages <> O -> exists F', F = (ct, cs_cursor st ct) :: F') /\
    (cs_cursor st ct <> None -> forall e, In e F -> snd e <> None).
Proof.
  induction pages as [|p IH]; intros st tr; cbn [sync_type].
  - exists []. simpl. rewrite app_nil_r. split; [reflexivity|].
    split; [intros e []|]. split; [intros H; contradiction H; reflexivity | intros _ e []].
  - assert (One : exists F, (tr_fetched tr ++ [(ct, cs_cursor st ct)])%list = (tr_fetched tr ++ F)%list /\
              (forall e, In e F -> fst e = ct) /\
              (S p <> O -> exists F', F = (ct, cs_cursor st ct) :: F') /\
              (cs_cursor st ct <> None -> forall e, In e F -> snd e <> None)).
    { exists [(ct, cs_cursor st ct)]. split; [reflexivity|].
      split; [intros e [<-|[]]; reflexivity|].
      split; [intros _; eexists; reflexivity | intros Hc e [<-|[]]; exact Hc]. }
    destruct (fetch_page remote c ct (cs_cursor st ct) max_attempts 0 false) as [r| |];
      [|exact One|exact One].
    destruct (next_cursor r) as [k|] eqn:N; [|exact One].
    destruct (IH (commit_page h c ct st (items r) (Some k))
                 (log_commit (log_fetch tr ct (cs_cursor st ct)) ct (cs_cursor st ct) (items r)))
      as [F0 [E0 [A0 [_ C0]]]].
    exists ((ct, cs_cursor st ct) :: F0). simpl in E0. rewrite E0, <- app_assoc. simpl.
    split; [reflexivity|].
    split; [intros e [<-|He]; [reflexivity | apply A0, He]|].
    split; [intros _; eexists; reflexivity|].
    intros Hc e [<-|He]; [exact Hc|]. apply C0; [|exact He].
    rewrite commit_page_cursor, ct_eqb_refl. discriminate.
Qed.

Lemma commit_step ct st tr cur rs next :
  committed_present st tr ->
  committed_present (commit_page h c ct st rs next) (log_commit (log_fetch tr ct cur) ct cur rs).
Proof.
  intros H t k rs' r Hin Hr. simpl in Hin |- *.
  apply in_app_or in Hin as [Hin|[E|[]]].
  - apply reconcile_page_mono, (H _ _ _ _ Hin Hr).
  - injection E as <- <- <-. apply reconcile_page_adds, Hr.
Qed.

Lemma sync_type_state ct pages : forall st tr,
  let R := sync_type h remote c ct pages st tr in
  (forall t, t <> ct -> cs_cursor (fst (fst R)) t = cs_cursor st t) /\
  (forall x, In x (map cu_ext (cs_units st)) -> In x (map cu_ext (cs_units (fst (fst R))))) /\
  (committed_present st tr -> committed_present (fst (fst R)) (snd (fst R))) /\
  (forall k, snd R = TExhausted k -> cs_cursor (fst (fst R)) ct = k).
Proof.
  induction pages as [|p IH]; intros st tr; cbn [sync_type].
  - simpl. split; [auto|]. split; [auto|]. split; [auto|]. intros k E; discriminate E.
  - destruct (fetch_page remote c ct (cs_cursor st ct) max_attempts 0 false) as [r| |].
    + assert (Hcur : forall next t, t <> ct ->
                cs_cursor (commit_page h c ct st (items r) next) t = cs_cursor st t).
      { intros next t Ht. rewrite commit_page_cursor, ct_eqb_neq; auto. }
      assert (Hmono : forall next x, In x (map cu_ext (cs_units st)) ->
                In x (map cu_ext (cs_units (commit_page h c ct st (items r) next)))).
      { intros next x Hx. simpl. apply reconcile_page_mono, Hx. }
      destruct (next_cursor r) as [k|].
      * destruct (IH (commit_page h c ct st (items r) (Some k))
                     (log_commit (log_fetch tr ct (cs_cursor st ct)) ct (cs_cursor st ct) (items r)))
          as [C1 [M1 [P1 X1]]].
        split; [intros t Ht; rewrite C1, Hcur; auto|].
        split; [intros x Hx; apply M1, Hmono, Hx|].
        split; [intros H; apply P1, commit_step, H | exact X1].
      * simpl fst; simpl snd.
        split; [intros t Ht; apply Hcur, Ht|].
        split; [intros x Hx; apply Hmono, Hx|].
        split; [apply commit_step | intros k E; discriminate E].
    + simpl. split; [auto|]. split; [auto|]. split; [auto|]. intros k E. injection E as <-. reflexivity.
    + simpl. split; [auto|]. split; [auto|]. split; [auto|]. intros k E. discriminate E.
Qed.

Lemma max_pages_pos : max_pages <> O.
Proof. unfold max_pages. discriminate. Qed.

Lemma sync_types_spec cts : forall st tr errs,
  NoDup cts ->
  (forall t k, In (ErrRateLimited t k) errs -> cs_cursor st t = k /\ ~ In t cts) ->
  let R := sync_types h remote c cts st tr errs in
  (exists G, tr_fetched (snd (fst (fst R))) = (tr_fetched tr ++ G)%list /\
             forall e, In e G -> In (fst e) cts) /\
  (snd R = false -> forall t, In t cts -> exists k, In (t, k) (tr_fetched (snd (fst (fst R))))) /\
  (forall x, In x (map cu_ext (cs_units st)) -> In x (map cu_ext (cs_units (fst (fst (fst R)))))) /\
  (committed_present st tr -> committed_present (fst (fst (fst R))) (snd (fst (fst R)))) /\
  (forall t k, In (ErrRateLimited t k) (snd (fst R)) -> cs_cursor (fst (fst (fst R))) t = k) /\
  (snd R = true -> exists t k, In (ErrAuthExpired t k) (snd (fst R))) /\
  (forall e, In e errs -> In e (snd (fst R))).
Proof.
  induction cts as [|t rest IH]; intros st tr errs Hnd Hinv; cbn [sync_types fst snd].
  - split; [exists []; rewrite app_nil_r; split; [reflexivity | intros e []]|].
    split; [intros _ t' []|]. split; [auto|]. split; [auto|].
    split; [intros t k H; apply (Hinv t k H)|]. split; [discriminate | auto].
  - inversion Hnd as [|? ? Hnin Hnd']; subst.
    pose proof (sync_type_fetched t max_pages st tr) as HF.
    pose proof (sync_type_state t max_pages st tr) as HS. cbv zeta in HS.
    destruct (sync_type h remote c t max_pages st tr) as [[st1 tr1] o] eqn:E.
    cbn [fst snd] in HF, HS.
    destruct HF as [F [EF [AF [HF _]]]]. destruct (HF max_pages_pos) as [F' EF'].
    destruct HS as [C1 [M1 [P1 X1]]].
    assert (Ht1 : In (t, cs_cursor st t) (tr_fetched tr1)).
    { rewrite EF, EF'. apply in_or_app. right. left. reflexivity. }
    assert (Hold : forall t' k, In (ErrRateLimited t' k) errs -> cs_cursor st1 t' = k /\ ~ In t' rest).
    { intros t' k H. destruct (Hinv t' k H) as [Hc Hn]. split.
      - rewrite C1; [exact Hc | intros ->; apply Hn; left; reflexivity].
      - intros Hr; apply Hn; right; exact Hr. }
    destruct o as [| |k|k]; cbn [fst snd].
    + destruct (IH st1 tr1 errs Hnd' Hold) as [[G [EG AG]] [All [M2 [P2 [X2 [Ab2 I2]]]]]].
      split; [exists (F ++ G)%list; rewrite EG, EF, app_assoc; split; [reflexivity|];
              intros e He; apply in_app_or in He as [He|He];
              [left; symmetry; apply AF, He | right; apply AG, He]|].
      split; [intros Hab t0 [Heq|Ht0]; [subst t0; exists (cs_cursor st t); rewrite EG; apply in_or_app; left; exact Ht1
                                      | apply All; assumption]|].
      split; [intros x Hx; apply M2, M1, Hx|].
      split; [intros H; apply P2, P1, H|].
      split; [exact X2|]. split; [exact Ab2 | intros e He; apply I2, He].
    + destruct (IH st1 tr1 errs Hnd' Hold) as [[G [EG AG]] [All [M2 [P2 [X2 [Ab2 I2]]]]]].
      split; [exists (F ++ G)%list; rewrite EG, EF, app_assoc; split; [reflexivity|];
              intros e He; apply in_app_or in He as [He|He];
              [left; symmetry; apply AF, He | right; apply AG, He]|].
      split; [intros Hab t0 [Heq|Ht0]; [subst t0; exists (cs_cursor st t); rewrite EG; apply in_or_app; left; exact Ht1
                                      | apply All; assumption]|].
      split; [intros x Hx; apply M2, M1, Hx|].
      split; [intros H; apply P2, P1, H|].
      split; [exact X2|]. split; [exact Ab2 | intros e He; apply I2, He].
    + assert (Hnew : forall t' k', In (ErrRateLimited t' k') (errs ++ [ErrRateLimited t k])%list ->
                       cs_cursor st1 t' = k' /\ ~ In t' rest).
      { intros t' k' H. apply in_app_or in H as [H|[H|[]]]; [apply Hold, H|].
        injection H as <- <-. split; [apply X1; reflexivity | exact Hnin]. }
      destruct (IH st1 tr1 _ Hnd' Hnew) as [[G [EG AG]] [All [M2 [P2 [X2 [Ab2 I2]]]]]].
      split; [exists (F ++ G)%list; rewrite EG, EF, app_assoc; split; [reflexivity|];
              intros e He; apply in_app_or in He as [He|He];
              [left; symmetry; apply AF, He | right; apply AG, He]|].
      split; [intros Hab t0 [Heq|Ht0]; [subst t0; exists (cs_cursor st t); rewrite EG; apply in_or_app; left; exact Ht1
                                      | apply All; assumption]|].
      split; [intros x Hx; apply M2, M1, Hx|].
      split; [intros H; apply P2, P1, H|].
      split; [exact X2|]. split; [exact Ab2 | intros e He; apply I2, in_or_app; left; exact He].
    + split; [exists F; rewrite EF; split; [reflexivity|]; intros e He; left; symmetry; apply AF, He|].
      split; [discriminate|].
      split; [exact M1|]. split; [exact P1|].
      split; [intros t' k' H; apply in_app_or in H as [H|[H|[]]]; [apply Hold, H | discriminate H]|].
      split; [intros _; exists t, k; apply in_or_app; right; left; reflexivity|].
      intros e He; apply in_or_app; left; exact He.
Qed.

Lemma fetched_of_app ct l1 l2 :
  fetched_of ct (l1 ++ l2)%list = (fetched_of ct l1 ++ fetched_of ct l2)%list.
Proof. unfold fetched_of. rewrite filter_app, map_app. reflexivity. Qed.

Lemma fetched_of_uniform ct t F :
  (forall e, In e F -> fst e = t) ->
  fetched_of ct F = if ct_eqb t ct then map snd F else [].
Proof.
  induction F as [|[t' k] F IHF]; intros H; [destruct (ct_eqb t ct); reflexivity|].
  unfold fetched_of in *. cbn [filter map fst snd].
  assert (t' = t) as -> by (apply (H (t', k)); left; reflexivity).
  assert (IH' : forall e, In e F -> fst e = t) by (intros e He; apply H; right; exact He).
  specialize (IHF IH'). destruct (ct_eqb t ct) eqn:Ect; cbn [map];
    rewrite IHF; reflexivity.
Qed.

Lemma sync_types_ct_fetches ct cts : forall st tr errs,
  NoDup cts ->
  exists X,
    fetched_of ct (tr_fetched (snd (fst (fst (sync_types h remote c cts st tr errs))))) =
      (fetched_of ct (tr_fetched tr) ++ X)%list /\
    (X = [] \/ exists X', X = cs_cursor st ct :: X') /\
    (~ In ct cts -> X = []) /\
    (cs_cursor st ct <> None -> forall k, In k X -> k <> None).
Proof.
  induction cts as [|t rest IH]; intros st tr errs Hnd; cbn [sync_types fst snd].
  - exists []. rewrite app_nil_r. split; [reflexivity|]. split; [left; reflexivity|].
    split; [reflexivity | intros _ k []].
  - inversion Hnd as [|? ? Hnin Hnd']; subst.
    pose proof (sync_type_fetched t max_pages st tr) as HF.
    pose proof (sync_type_state t max_pages st tr) as HS. cbv zeta in HS.
    destruct (sync_type h remote c t max_pages st tr) as [[st1 tr1] o] eqn:E.
    cbn [fst snd] in HF, HS.
    destruct HF as [F [EF [AF [HF NF]]]]. destruct (HF max_pages_pos) as [F' EF'].
    destruct HS as [C1 _].
    assert (Hbody : forall errs',
      exists X,
        fetched_of ct (tr_fetched (snd (fst (fst (sync_types h remote c rest st1 tr1 errs'))))) =
          (fetched_of ct (tr_fetched tr) ++ X)%list /\
        (X = [] \/ exists X', X = cs_cursor st ct :: X') /\
        (~ In ct (t :: rest) -> X = []) /\
        (cs_cursor st ct <> None -> forall k, In k X -> k <> None)).
    { intros errs'. destruct (IH st1 tr1 errs' Hnd') as [X [EX [HX [NX KX]]]].
      rewrite EX, EF, fetched_of_app, (fetched_of_uniform ct t F AF).
      destruct (ct_eqb t ct) eqn:Ect.
      - apply ct_eqb_spec in Ect. subst t.
        rewrite (NX Hnin), !app_nil_r. exists (map snd F).
        split; [reflexivity|]. split; [right; rewrite EF'; exists (map snd F'); reflexivity|].
        split; [intros Hn; exfalso; apply Hn; left; reflexivity|].
        intros Hc k Hk. apply in_map_iff in Hk as [e [<- He]]. apply (NF Hc e He).
      - assert (Hne : t <> ct) by (intros ->; rewrite ct_eqb_refl in Ect; discriminate).
        rewrite app_nil_r. exists X. rewrite <- (C1 ct (not_eq_sym Hne)).
        split; [reflexivity|]. split; [exact HX|].
        split; [intros Hn; apply NX; intros Hr; apply Hn; right; exact Hr | exact KX]. }
    destruct o as [| |k|k]; cbn [fst snd]; try apply Hbody.
    rewrite EF, fetched_of_app, (fetched_of_uniform ct t F AF).
    destruct (ct_eqb t ct) eqn:Ect.
    + apply ct_eqb_spec in Ect. subst t. exists (map snd F).
      split; [reflexivity|]. split; [right; rewrite EF'; exists (map snd F'); reflexivity|].
      split; [intros Hn; exfalso; apply Hn; left; reflexivity|].
      intros Hc k' Hk. apply in_map_iff in Hk as [e [<- He]]. apply (NF Hc e He).
    + exists []. split; [reflexivity|]. split; [left; reflexivity|].
      split; [reflexivity | intros _ k' []].
Qed.

Lemma opt_N_eq_dec (x y : option N) : {x = y} + {x <> y}.
Proof. decide equality. apply N.eq_dec. Defined.

Lemma fetch_eq_dec (x y : content_type * option N) : {x = y} + {x <> y}.
Proof. decide equality; [apply opt_N_eq_dec | decide equality]. Defined.

Lemma fetch_page_exhausted ct cur :
  (forall a, auth_expired (remote c ct cur a) = false /\ rate_limited (remote c ct cur a) = true) ->
  forall n a r, fetch_page remote c ct cur n a r = FExhausted.
Proof.
  intros H n. induction n as [|n IHn]; intros a r; [reflexivity|].
  cbn [fetch_page]. destruct (H a) as [-> ->]. apply IHn.
Qed.

Lemma sync_type_exhaustion ct cur :
  (forall a, auth_expired (remote c ct cur a) = false /\ rate_limited (remote c ct cur a) = true) ->
  forall pages st tr,
  ~ In (ct, cur) (tr_fetched tr) ->
  In (ct, cur) (tr_fetched (snd (fst (sync_type h remote c ct pages st tr)))) ->
  snd (sync_type h remote c ct pages st tr) = TExhausted cur.
Proof.
  intros Hrl pages. induction pages as [|p IHp]; intros st tr Hn Hin; cbn [sync_type] in *.
  - contradiction.
  - destruct (opt_N_eq_dec (cs_cursor st ct) cur) as [Ec|Ec].
    { rewrite Ec, (fetch_page_exhausted ct cur Hrl). reflexivity. }
    assert (Hn1 : ~ In (ct, cur) (tr_fetched (log_fetch tr ct (cs_cursor st ct)))).
    { cbn [log_fetch tr_fetched]. intros H. apply in_app_or in H as [H|[H|[]]];
        [contradiction | injection H as E; congruence]. }
    destruct (fetch_page remote c ct (cs_cursor st ct) max_attempts 0 false) as [r| |];
      cbn [fst snd] in *.
    + destruct (next_cursor r) as [k|]; cbn [fst snd] in *.
      * apply IHp; assumption.
      * contradiction.
    + contradiction.
    + contradiction.
Qed.

Lemma sync_types_errs_mono cts : forall st tr errs e,
  In e errs -> In e (snd (fst (sync_types h remote c cts st tr errs))).
Proof.
  induction cts as [|t rest IH]; intros st tr errs e He; cbn [sync_types]; [exact He|].
  destruct (sync_type h remote c t max_pages st tr) as [[st1 tr1] [| |k|k]]; cbn [fst snd];
    try (apply IH; assumption).
  - apply IH, in_or_app. left. exact He.
  - apply in_or_app. left. exact He.
Qed.

Lemma sync_types_records_exhaustion ct cur :
  (forall a, auth_expired (remote c ct cur a) = false /\ rate_limited (remote c ct cur a) = true) ->
  forall cts st tr errs,
  ~ In (ct, cur) (tr_fetched tr) ->
  In (ct, cur) (tr_fetched (snd (fst (fst (sync_types h remote c cts st tr errs))))) ->
  In (ErrRateLimited ct cur) (snd (fst (sync_types h remote c cts st tr errs))).
Proof.
  intros Hrl cts. induction cts as [|t rest IH]; intros st tr errs Hn; cbn [sync_types].
  - intros Hin. exact (False_ind _ (Hn Hin)).
  - pose proof (sync_type_fetched t max_pages st tr) as HF.
    pose proof (sync_type_exhaustion ct cur Hrl max_pages st tr Hn) as HX.
    destruct (sync_type h remote c t max_pages st tr) as [[st1 tr1] o] eqn:E.
    cbn [fst snd] in HF. destruct HF as [F [EF [AF _]]].
    destruct (in_dec fetch_eq_dec (ct, cur) (tr_fetched tr1)) as [Hin1|Hn1].
    + intros _. assert (Ht : t = ct).
      { rewrite EF in Hin1. apply in_app_or in Hin1 as [Hin1|Hin1]; [exact (False_ind _ (Hn Hin1))|].
        symmetry. apply (AF _ Hin1). }
      subst t. rewrite E in HX. cbn [fst snd] in HX. rewrite (HX Hin1).
      apply sync_types_errs_mono, in_or_app. right. left. reflexivity.
    + destruct o as [| |k|k]; cbn [fst snd]; intros Hin;
        [apply IH; assumption | apply IH; assumption | apply IH; assumption
        | exact (False_ind _ (Hn1 Hin))].
Qed.

Lemma in_fetched_of t k l : In (t, k) l -> In k (fetched_of t l).
Proof.
  intros H. unfold fetched_of. apply in_map_iff. exists (t, k). split; [reflexivity|].
  apply filter_In. split; [exact H | apply ct_eqb_refl].
Qed.

Lemma content_types_all t : In t content_types.
Proof. destruct t; cbn; tauto. Qed.

Lemma content_types_nodup : NoDup content_types.
Proof. repeat constructor; cbn; intuition discriminate. Qed.

End Facts.

(** A run fetches [ct] from its stored cursor first, and never from the
    start cursor while that cursor is set. *)
Lemma sync_resume (h : string -> N) (remote : Remote) (c : N) (st : CourseState)
    (ct : content_type) :
  (fetched_of ct (tr_fetched (res_trace (sync h remote c st))) = [] \/
   exists l, fetched_of ct (tr_fetched (res_trace (sync h remote c st))) = cs_cursor st ct :: l) /\
  (run_status (res_run (sync h remote c st)) <> Failed ->
   exists l, fetched_of ct (tr_fetched (res_trace (sync h remote c st))) = cs_cursor st ct :: l) /\
  (cs_cursor st ct <> None -> ~ In (ct, None) (tr_fetched (res_trace (sync h remote c st)))).
Proof.
  assert (Hinv0 : forall t k, In (ErrRateLimited t k) ([] : list SyncError) ->
                    cs_cursor st t = k /\ ~ In t content_types) by (intros t k []).
  pose proof (sync_types_spec h remote c content_types st empty_trace [] content_types_nodup Hinv0)
    as S.
  pose proof (sync_types_ct_fetches h remote c ct content_types st empty_trace [] content_types_nodup)
    as CF.
  cbv zeta in S. revert S CF. unfold sync.
  destruct (sync_types h remote c content_types st empty_trace []) as [[[st' tr] errs] ab] eqn:E.
  intros S CF. cbn [fst snd] in S, CF.
  cbn [res_state res_run res_trace run_status].
  destruct S as [_ [All _]].
  destruct CF as [Y [EY [HY [_ KY]]]].
  cbn [fetched_of tr_fetched empty_trace filter map app] in EY.
  rewrite EY.
  split; [exact HY|].
  split.
  - intros Hst. destruct ab; [exfalso; apply Hst; reflexivity|].
    destruct HY as [HY|HY]; [|exact HY].
    destruct (All eq_refl ct (content_types_all ct)) as [k Hk].
    apply in_fetched_of in Hk. rewrite EY, HY in Hk. destruct Hk.
  - intros Hn Hin. apply in_fetched_of in Hin. rewrite EY in Hin.
    exact (KY Hn None Hin eq_refl).
Qed.

(** What one run guarantees, read off its SyncRun, trace and state. *)
Lemma sync_run_spec (h : string -> N) (remote : Remote) (c : N) (st : CourseState) :
  ((forall t k, ~ In (ErrAuthExpired t k) (run_errors (res_run (sync h remote c st)))) ->
   run_status (res_run (sync h remote c st)) =
     match run_errors (res_run (sync h remote c st)) with [] => Succeeded | _ => Partial end /\
   forall t, exists k, In (t, k) (tr_fetched (res_trace (sync h remote c st)))) /\
  (forall x, In x (map cu_ext (cs_units st)) ->
             In x (map cu_ext (cs_units (res_state (sync h remote c st))))) /\
  committed_present (res_state (sync h remote c st)) (res_trace (sync h remote c st)) /\
  (forall t k, In (ErrRateLimited t k) (run_errors (res_run (sync h remote c st))) ->
               cs_cursor (res_state (sync h remote c st)) t = k) /\
  (forall ct cur,
     (forall a, auth_expired (remote c ct cur a) = false /\ rate_limited (remote c ct cur a) = true) ->
     In (ct, cur) (tr_fetched (res_trace (sync h remote c st))) ->
     In (ErrRateLimited ct cur) (run_errors (res_run (sync h remote c st)))).
Proof.
  assert (Hinv0 : forall t k, In (ErrRateLimited t k) ([] : list SyncError) ->
                    cs_cursor st t = k /\ ~ In t content_types) by (intros t k []).
  pose proof (sync_types_spec h remote c content_types st empty_trace [] content_types_nodup Hinv0)
    as S.
  pose proof (fun ct cur Hrl => sync_types_records_exhaustion h remote c ct cur Hrl content_types st
                                  empty_trace [] (fun H => H)) as RX.
  cbv zeta in S. revert S RX. unfold sync.
  destruct (sync_types h remote c content_types st empty_trace []) as [[[st' tr] errs] ab] eqn:E.
  intros S RX. cbn [fst snd] in S, RX.
  cbn [res_state res_run res_trace run_status run_errors].
  destruct S as [_ [All [M [P [X [Ab _]]]]]].
  split; [|split; [exact M|split; [apply P; intros t k rs r []|split; [exact X|exact RX]]]].
  intros Hna. destruct ab.
  - destruct (Ab eq_refl) as [t [k Hk]]. exfalso. exact (Hna t k Hk).
  - split; [reflexivity|]. intros t. exact (All eq_refl t (content_types_all t)).
Qed.

Lemma sync_course (h : string -> N) (remote : Remote) (c : N) (st : CourseState) :
  run_course (res_run (sync h remote c st)) = c.
Proof.
  unfold sync. destruct (sync_types h remote c content_types st empty_trace []) as [[[st' tr] errs] ab].
  reflexivity.
Qed.

(** A run succeeds exactly when it recorded no error. *)
Lemma sync_succeeded_iff (h : string -> N) (remote : Remote) (c : N) (st : CourseState) :
  run_status (res_run (sync h remote c st)) = Succeeded <-> run_errors (res_run (sync h remote c st)) = [].
Proof.
  assert (Hinv0 : forall t k, In (ErrRateLimited t k) ([] : list SyncError) ->
                    cs_cursor st t = k /\ ~ In t content_types) by (intros t k []).
  pose proof (sync_types_spec h remote c content_types st empty_trace [] content_types_nodup Hinv0)
    as S.
  cbv zeta in S. revert S. unfold sync.
  destruct (sync_types h remote c content_types st empty_trace []) as [[[st' tr] errs] ab] eqn:E.
  intros S. cbn [fst snd] in S. cbn [res_run run_status run_errors].
  destruct S as [_ [_ [_ [_ [_ [Ab _]]]]]].
  destruct ab.
  - split; [discriminate|]. intros ->. destruct (Ab eq_refl) as [t [k []]].
  - destruct errs; split; (reflexivity || discriminate).
Qed.

Lemma sync_courses_runs (h : string -> N) (remote : Remote) courses : forall states,
  map run_course (snd (sync_courses h remote courses states)) = courses /\
  forall r, In r (snd (sync_courses h remote courses states)) ->
    exists c st, r = res_run (sync h remote c st).
Proof.
  induction courses as [|c rest IH]; intros states; cbn [sync_courses].
  - split; [reflexivity | intros r []].
  - match goal with
    | |- context [sync_courses h remote rest ?s] =>
        destruct (IH s) as [Hm Hr]; destruct (sync_courses h remote rest s) as [states'' runs]
    end.
    cbn [snd map] in *. split.
    + rewrite sync_course, Hm. reflexivity.
    + intros r [<-|Hin]; [eexists; eexists; reflexivity | exact (Hr r Hin)].
Qed.

Lemma filter_failed_length (runs : list SyncRun) :
  (List.length (filter (fun r => negb (run_failed r)) runs) + List.length (filter run_failed runs))%nat
  = List.length runs.
Proof.
  induction runs as [|r runs IH]; [reflexivity|]. cbn [filter List.length].
  destruct (run_failed r); cbn [negb List.length]; lia.
Qed.

End SyncFacts.

Module SyncClaims.
Import Content Json Sync SyncFacts.

(** C6. Exhausted rate-limit retries make a run partial, not a failure,
    and a retry resumes where the run stopped.  Let the remote answer
    every attempt at the page of content type [ct] at cursor [cur] with a
    rate-limit signal, let [sync] reach that page, and let no token
    refresh fail in the run.  Then the run records the error
    [ErrRateLimited ct cur] on the SyncRun, its status is [Partial], it
    still goes through every content type (the failing one does not block
    the others), every unit present before the run is still present and
    every record of every committed page is present (no rollback), and the
    stored cursor of [ct] is [cur], the cursor of the first uncommitted
    page.  A later [sync] from that state, against any remote, fetches
    [ct] starting at [cur] (it fetches [ct] unless it fails on an expired
    token), and when [cur] is not the start cursor it never fetches the
    first page of [ct] again. *)
Theorem sync_rate_limit_partial (h : string -> N) (remote : Remote) (c : N)
    (st : CourseState) (ct : content_type) (cur : option N) :
  (forall a, auth_expired (remote c ct cur a) = false /\ rate_limited (remote c ct cur a) = true) ->
  In (ct, cur) (tr_fetched (res_trace (sync h remote c st))) ->
  (forall t k, ~ In (ErrAuthExpired t k) (run_errors (res_run (sync h remote c st)))) ->
  In (ErrRateLimited ct cur) (run_errors (res_run (sync h remote c st))) /\
  run_status (res_run (sync h remote c st)) = Partial /\
  (forall t, exists k, In (t, k) (tr_fetched (res_trace (sync h remote c st)))) /\
  (forall x, In x (map cu_ext (cs_units st)) ->
             In x (map cu_ext (cs_units (res_state (sync h remote c st))))) /\
  committed_present (res_state (sync h remote c st)) (res_trace (sync h remote c st)) /\
  cs_cursor (res_state (sync h remote c st)) ct = cur /\
  (forall remote' : Remote,
     let res' := sync h remote' c (res_state (sync h remote c st)) in
     (fetched_of ct (tr_fetched (res_trace res')) = [] \/
      exists l, fetched_of ct (tr_fetched (res_trace res')) = cur :: l) /\
     (run_status (res_run res') <> Failed ->
      exists l, fetched_of ct (tr_fetched (res_trace res')) = cur :: l) /\
     (cur <> None -> ~ In (ct, None) (tr_fetched (res_trace res')))).
Proof.
  intros Hrl Hf Hna.
  destruct (sync_run_spec h remote c st) as [Ok [M [P [X RX]]]].
  destruct (Ok Hna) as [Hst All].
  assert (Hrec : In (ErrRateLimited ct cur) (run_errors (res_run (sync h remote c st))))
    by exact (RX ct cur Hrl Hf).
  assert (Xc : cs_cursor (res_state (sync h remote c st)) ct = cur) by exact (X ct cur Hrec).
  split; [exact Hrec|].
  split; [rewrite Hst; destruct (run_errors (res_run (sync h remote c st)));
          [destruct Hrec | reflexivity]|].
  split; [exact All|]. split; [exact M|]. split; [exact P|]. split; [exact Xc|].
  intros remote'. cbv zeta. rewrite <- Xc.
  exact (sync_resume h remote' c (res_state (sync h remote c st)) ct).
Qed.

(** Scenario 3: the assignments of course 7 hit the rate limit on page 2
    (cursor [Some 2]) after page 1 was committed; the run is partial, the
    page-1 unit [lab3] is present and the stored cursor is page 2. *)
Lemma sync_rate_limit_partial_witness :
  In (ErrRateLimited Assignments (Some 2%N))
     (run_errors (res_run (sync Samples.length_hash Samples.remote_rate_limited 7%N Samples.fresh_course))) /\
  run_status (res_run (sync Samples.length_hash Samples.remote_rate_limited 7%N Samples.fresh_course))
    = Partial /\
  cs_cursor (res_state (sync Samples.length_hash Samples.remote_rate_limited 7%N Samples.fresh_course))
    Assignments = Some 2%N /\
  In "lab3" (map cu_ext (cs_units
    (res_state (sync Samples.length_hash Samples.remote_rate_limited 7%N Samples.fresh_course)))).
Proof.
  assert (H1 : forall a, auth_expired (Samples.remote_rate_limited 7%N Assignments (Some 2%N) a) = false /\
                         rate_limited (Samples.remote_rate_limited 7%N Assignments (Some 2%N) a) = true)
    by (intros a; split; reflexivity).
  assert (H2 : In (Assignments, Some 2%N)
                 (tr_fetched (res_trace (sync Samples.length_hash Samples.remote_rate_limited 7%N
                                           Samples.fresh_course))))
    by (vm_compute; tauto).
  assert (H3 : forall t k, ~ In (ErrAuthExpired t k)
                 (run_errors (res_run (sync Samples.length_hash Samples.remote_rate_limited 7%N
                                         Samples.fresh_course))))
    by (intros t k; vm_compute; intros [H|[]]; discriminate H).
  destruct (sync_rate_limit_partial Samples.length_hash Samples.remote_rate_limited 7%N
              Samples.fresh_course Assignments (Some 2%N) H1 H2 H3)
    as [Hr [Hs [_ [_ [_ [Hc _]]]]]].
  split; [exact Hr|]. split; [exact Hs|]. split; [exact Hc|].
  vm_compute. left. reflexivity.
Defined.

(** C9. [POST /courses/sync] always answers with the aggregate summary,
    also when runs failed, and enumerates the failures.  For any courses
    and any remote behaviour the response has status 200 and the summary
    body; there is one SyncRun per course, in order; [courses_synced]
    counts the runs that did not fail, so together with the failed runs it
    accounts for every course; [assignments_synced] adds up the
    assignments committed by all runs; every run that did not succeed
    (partial or failed) is listed in [failures] with its course id and
    errors, and [failures] lists nothing else; and the body carries the
    fields [courses_synced] and [assignments_synced] that the dashboard
    reads, and the [failures] array with one entry per listed failure. *)
Theorem sync_summary_enumerates_failures (h : string -> N) (remote : Remote)
    (courses : list N) (states : N -> CourseState) :
  let runs := snd (sync_courses h remote courses states) in
  let s := summarize runs in
  snd (sync_endpoint h remote courses states) = (200%nat, summary_json s) /\
  map run_course runs = courses /\
  (courses_synced s + List.length (filter run_failed runs))%nat = List.length courses /\
  assignments_synced s = list_sum (map assignments_of runs) /\
  (forall r, In r runs -> run_status r <> Succeeded ->
             In (run_course r, run_errors r) (failures s)) /\
  (forall f, In f (failures s) ->
             exists r, In r runs /\ run_status r <> Succeeded /\ f = (run_course r, run_errors r)) /\
  json_get "courses_synced" (summary_json s) = Some (JNum (inject_Z (Z.of_nat (courses_synced s)))) /\
  json_get "assignments_synced" (summary_json s) =
    Some (JNum (inject_Z (Z.of_nat (assignments_synced s)))) /\
  (exists l, json_get "failures" (summary_json s) = Some (JArr l) /\
             List.length l = List.length (failures s)).
Proof.
  cbv zeta.
  destruct (sync_courses_runs h remote courses states) as [Hm Hr].
  assert (Hok : forall r, In r (snd (sync_courses h remote courses states)) ->
                  run_status r = Succeeded <-> run_errors r = []).
  { intros r Hin. destruct (Hr r Hin) as [c [st ->]]. apply sync_succeeded_iff. }
  split.
  { unfold sync_endpoint. destruct (sync_courses h remote courses states) as [states' runs].
    reflexivity. }
  split; [exact Hm|].
  split; [cbn [summarize courses_synced]; rewrite filter_failed_length, <- (length_map run_course), Hm; reflexivity|].
  split.
  { cbn [summarize assignments_synced].
    generalize (snd (sync_courses h remote courses states)) as runs.
    induction runs as [|r runs IH]; [reflexivity|].
    cbn [fold_right map list_sum]. rewrite IH. reflexivity. }
  split.
  { intros r Hin Hns. cbn [summarize failures]. apply in_map_iff. exists r. split; [reflexivity|].
    apply filter_In. split; [exact Hin|].
    destruct (run_errors r) eqn:Er; [|reflexivity].
    exfalso. apply Hns. apply (Hok r Hin). exact Er. }
  split.
  { intros f Hf. cbn [summarize failures] in Hf. apply in_map_iff in Hf as [r [<- Hin]].
    apply filter_In in Hin as [Hin Hne]. exists r. split; [exact Hin|]. split; [|reflexivity].
    intros Hs. apply (Hok r Hin) in Hs. rewrite Hs in Hne. discriminate Hne. }
  split; [reflexivity|]. split; [reflexivity|].
  eexists. split; [reflexivity|]. apply length_map.
Qed.

End SyncClaims.

(* ------------------------------------------------------------------ *)
(** ** Frontend: helper lemmas *)

Module FrontendFacts.
Import Json JsValue QAPage Providers.

Lemma qle_len_zero (n : nat) : Qle_bool (inject_Z (Z.of_nat n)) 0 = Nat.eqb n 0.
Proof. destruct n; reflexivity. Qed.

Lemma find_app {A} (f : A -> bool) (l1 l2 : list A) :
  find f (l1 ++ l2) = match find f l1 with Some x => Some x | None => find f l2 end.
Proof. induction l1 as [|x l1 IH]; cbn; [reflexivity|]. destruct (f x); auto. Qed.

Lemma st_get_remove_same m k : st_get (st_remove m k) k = None.
Proof.
  unfold st_get, st_remove. induction m as [|[k0 v0] m IH]; cbn; [reflexivity|].
  destruct (String.eqb k0 k) eqn:E; cbn; [exact IH|]. rewrite E. exact IH.
Qed.

Lemma st_get_remove_other m k k' : k <> k' -> st_get (st_remove m k) k' = st_get m k'.
Proof.
  intros Hne. unfold st_get, st_remove. induction m as [|[k0 v0] m IH]; cbn; [reflexivity|].
  destruct (String.eqb_spec k0 k) as [->|Hk]; cbn.
  - apply String.eqb_neq in Hne. rewrite Hne. exact IH.
  - destruct (String.eqb k0 k'); [reflexivity | exact IH].
Qed.

Lemma st_get_set_same m k v : st_get (st_set m k v) k = Some v.
Proof.
  pose proof (st_get_remove_same m k) as H. unfold st_get, st_set in *.
  rewrite find_app. destruct (find _ (st_remove m k)); [discriminate|].
  cbn. rewrite String.eqb_refl. reflexivity.
Qed.

Lemma st_get_set_other m k k' v : k <> k' -> st_get (st_set m k v) k' = st_get m k'.
Proof.
  intros Hne. pose proof (st_get_remove_other m k k' Hne) as H. unfold st_get, st_set in *.
  rewrite find_app. destruct (find _ (st_remove m k)) as [kv|]; [exact H|].
  cbn. apply String.eqb_neq in Hne. rewrite Hne. exact H.
Qed.

Lemma trim_left_nil l : trim_left l = [] <-> Forall (fun c => js_ws c = true) l.
Proof.
  induction l as [|c l IH]; cbn; [split; auto|].
  destruct (js_ws c) eqn:E.
  - rewrite IH. split; [intros H; constructor; auto | intros H; inversion H; auto].
  - split; [discriminate | intros H; inversion H; congruence].
Qed.

Lemma trim_left_head l c r : trim_left l = c :: r -> js_ws c = false.
Proof.
  induction l as [|x l IH]; cbn; [discriminate|].
  destruct (js_ws x) eqn:E; [exact IH | intros H; injection H as -> _; exact E].
Qed.

Lemma js_trim_empty s :
  js_trim s = "" <-> Forall (fun c => js_ws c = true) (list_ascii_of_string s).
Proof.
  unfold js_trim. set (T := trim_left (list_ascii_of_string s)).
  assert (HT : T = [] <-> Forall (fun c => js_ws c = true) (list_ascii_of_string s))
    by apply trim_left_nil.
  rewrite <- HT. split.
  - intros H.
    assert (E : rev (trim_left (rev T)) = [])
      by (destruct (rev (trim_left (rev T))); [reflexivity | discriminate]).
    apply (f_equal (@rev ascii)) in E. rewrite rev_involutive in E. cbn in E.
    apply trim_left_nil, Forall_rev in E as E2. rewrite rev_involutive in E2.
    destruct T as [|c r] eqn:ET; [reflexivity|].
    inversion E2 as [|? ? Hc]. pose proof (trim_left_head (list_ascii_of_string s) c r ET) as Hf.
    unfold T in *. congruence.
  - intros ->. reflexivity.
Qed.

Lemma filter_eqb_absent p l : ~ In p l -> filter (String.eqb p) l = [].
Proof.
  induction l as [|x l IH]; cbn; intros H; [reflexivity|].
  destruct (String.eqb_spec p x); [subst; tauto|]. apply IH. tauto.
Qed.

(** The colour shown for a numeric confidence [q]. *)
Lemma message_colour_num s2n a2n m q :
  msg_confidence m = JV (JNum q) ->
  message_colour s2n a2n m =
    Some (if Qle_bool (3 # 4) q then "text-green-400"
          else if Qle_bool (1 # 2) q then "text-yellow-400" else "text-red-400").
Proof.
  intros H. unfold message_colour, or_zero. rewrite H. cbn [js_truthy].
  destruct (Qeq_bool q 0) eqn:E; cbn.
  - apply Qeq_bool_eq in E. unfold Qeq in E. cbn in E.
    pose proof (Pos2Z.is_pos (Qden q)).
    assert (Hn : Qnum q = 0) by lia.
    unfold Qle_bool. rewrite Hn. reflexivity.
  - unfold confidenceColor, js_ge, to_number.
    destruct (Qle_bool (3 # 4) q); [reflexivity|].
    destruct (Qle_bool (1 # 2) q); reflexivity.
Qed.


Ltac st_simp :=
  repeat first [ rewrite st_get_set_same | rewrite st_get_remove_same
               | rewrite st_get_set_other by discriminate
               | rewrite st_get_remove_other by discriminate ].

End FrontendFacts.

(* ------------------------------------------------------------------ *)
(** ** Frontend properties *)

Module FrontendProps.
Import Json JsValue FrontendFacts.

(** X1 (assignments and courses pages): when not loading, the page maps
    over the field only when it is a non-empty array; an absent, [null],
    boolean, numeric, empty-string or empty-array field shows the empty
    state, and a non-empty string field crashes the page. *)
Theorem list_branch_only_arrays s2n a2n data key :
  (forall l, js_prop data key = JV (JArr l) ->
     list_branch s2n a2n false data key = match l with [] => ShowEmpty | _ => ShowList l end) /\
  ((js_prop data key = JUndef \/ js_prop data key = JV JNull \/ js_prop data key = JV (JStr "")
    \/ (exists b, js_prop data key = JV (JBool b)) \/ (exists q, js_prop data key = JV (JNum q))) ->
     list_branch s2n a2n false data key = ShowEmpty) /\
  (forall c s, js_prop data key = JV (JStr (String c s)) ->
     list_branch s2n a2n false data key = ShowCrash) /\
  (forall items, list_branch s2n a2n false data key = ShowList items ->
     js_prop data key = JV (JArr items) /\ items <> []).
Proof.
  unfold list_branch. cbv zeta. generalize (js_prop data key) as f. intros f.
  split; [|split; [|split]].
  - intros l ->. unfold js_gt, to_number. cbn [js_prop String.eqb].
    rewrite ?String.eqb_refl, ?qle_len_zero. destruct l; reflexivity.
  - intros [->|[->|[->|[[b ->]|[q ->]]]]]; reflexivity.
  - intros c s ->. unfold js_gt, to_number. cbn [js_prop]. rewrite ?String.eqb_refl.
    cbn [String.length]. rewrite ?qle_len_zero. reflexivity.
  - intros items. destruct f as [|[| | | |l|fs]]; cbn [js_prop];
      unfold js_gt, to_number; cbn [js_prop]; try discriminate.
    + destruct (String.eqb "length" "length"); [|discriminate].
      destruct (Qle_bool _ _); discriminate.
    + rewrite ?String.eqb_refl, ?qle_len_zero. intros H.
      destruct l; cbn in H; [discriminate | injection H as <-; split; [reflexivity | discriminate]].
    + intros H. repeat match type of H with context [match ?x with _ => _ end] => destruct x end;
      discriminate.
Qed.




(** X4 (QA page): [handleSubmit] does nothing while a request is pending
    or when the input is empty or only whitespace. Otherwise it sends
    the untrimmed input, appends it as a user message, clears the input
    and marks the request pending. *)
Theorem handleSubmit_guard s :
  ((QAPage.is_pending s = true \/
    Forall (fun c => QAPage.js_ws c = true) (list_ascii_of_string (QAPage.input s))) ->
     QAPage.handleSubmit s = s) /\
  (QAPage.is_pending s = false ->
   Exists (fun c => QAPage.js_ws c = false) (list_ascii_of_string (QAPage.input s)) ->
     QAPage.handleSubmit s =
       QAPage.mkQA (QAPage.messages s ++ [QAPage.user_message (QAPage.input s)])%list
                   "" true (QAPage.sent s ++ [QAPage.input s])%list).
Proof.
  unfold QAPage.handleSubmit. split.
  - intros [Hp|Hw].
    + rewrite Hp, orb_true_r. reflexivity.
    + apply js_trim_empty in Hw. rewrite Hw. reflexivity.
  - intros Hp Hw. rewrite Hp, orb_false_r.
    destruct (String.eqb_spec (QAPage.js_trim (QAPage.input s)) "") as [E|E]; [|reflexivity].
    apply js_trim_empty in E. rewrite Forall_forall in E. apply Exists_exists in Hw as (c & Hin & Hc).
    rewrite (E c Hin) in Hc. discriminate.
Qed.


(** X6 (QA page): an answer body without [answer] and [confidence]
    fields (such as an error body [{"detail": ...}], which [onSuccess]
    also receives) is still appended as an assistant message. Its
    content is [undefined] and it is coloured red. *)
Theorem on_success_error_body s2n a2n fs s
  (Ha : obj_lookup fs "answer" = None) (Hc : obj_lookup fs "confidence" = None) :
  exists m, QAPage.messages (QAPage.on_success (JObj fs) s) = (QAPage.messages s ++ [m])%list /\
    QAPage.role_of m = QAPage.RoleAssistant /\ QAPage.content m = JUndef /\
    QAPage.message_colour s2n a2n m = Some "text-red-400" /\
    QAPage.is_pending (QAPage.on_success (JObj fs) s) = false.
Proof.
  exists (QAPage.assistant_of (JObj fs)). cbn. rewrite Ha.
  repeat split.
  unfold QAPage.message_colour. cbn [QAPage.msg_confidence QAPage.assistant_of js_prop].
  rewrite Hc. reflexivity.
Qed.

Lemma on_success_error_body_witness :
  obj_lookup [("detail", JStr "Not authenticated")] "answer" = None /\
  obj_lookup [("detail", JStr "Not authenticated")] "confidence" = None /\
  exists m, QAPage.messages (QAPage.on_success (JObj [("detail", JStr "Not authenticated")]) QAPage.qa_init)
              = (QAPage.messages QAPage.qa_init ++ [m])%list /\
    QAPage.role_of m = QAPage.RoleAssistant /\ QAPage.content m = JUndef /\
    QAPage.message_colour (fun _ => NNaN) (fun _ => NNaN) m = Some "text-red-400" /\
    QAPage.is_pending (QAPage.on_success (JObj [("detail", JStr "Not authenticated")]) QAPage.qa_init) = false.
Proof.
  refine (conj eq_refl (conj eq_refl _)).
  apply on_success_error_body; reflexivity.
Defined.

(** X7 (QA page): the colour of a numeric confidence never throws and is
    monotone. If a confidence shows green, every higher one does too.
    If a confidence shows red, every lower one does too. *)
Theorem message_colour_monotone s2n a2n m1 m2 q1 q2
  (H1 : QAPage.msg_confidence m1 = JV (JNum q1)) (H2 : QAPage.msg_confidence m2 = JV (JNum q2))
  (Hle : Qle q1 q2) :
  QAPage.message_colour s2n a2n m1 <> None /\
  (QAPage.message_colour s2n a2n m1 = Some "text-green-400" ->
     QAPage.message_colour s2n a2n m2 = Some "text-green-400") /\
  (QAPage.message_colour s2n a2n m2 = Some "text-red-400" ->
     QAPage.message_colour s2n a2n m1 = Some "text-red-400").
Proof.
  rewrite (message_colour_num _ _ _ _ H1), (message_colour_num _ _ _ _ H2).
  split; [discriminate|split].
  - destruct (Qle_bool (3 # 4) q1) eqn:E1;
      [|destruct (Qle_bool (1 # 2) q1); discriminate].
    intros _. apply Qle_bool_iff in E1.
    assert (E2 : Qle_bool (3 # 4) q2 = true) by (apply Qle_bool_iff; exact (Qle_trans _ _ _ E1 Hle)).
    rewrite E2. reflexivity.
  - destruct (Qle_bool (3 # 4) q2) eqn:E1; [discriminate|].
    destruct (Qle_bool (1 # 2) q2) eqn:E2; [discriminate|]. intros _.
    assert (F1 : Qle_bool (3 # 4) q1 = false).
    { destruct (Qle_bool (3 # 4) q1) eqn:F; [|reflexivity].
      apply Qle_bool_iff in F.
      assert (G : Qle_bool (3 # 4) q2 = true) by (apply Qle_bool_iff; exact (Qle_trans _ _ _ F Hle)).
      congruence. }
    assert (F2 : Qle_bool (1 # 2) q1 = false).
    { destruct (Qle_bool (1 # 2) q1) eqn:F; [|reflexivity].
      apply Qle_bool_iff in F.
      assert (G : Qle_bool (1 # 2) q2 = true) by (apply Qle_bool_iff; exact (Qle_trans _ _ _ F Hle)).
      congruence. }
    rewrite F1, F2. reflexivity.
Qed.

Lemma message_colour_monotone_witness :
  QAPage.message_colour (fun _ => NNaN) (fun _ => NNaN)
    (QAPage.mkChat QAPage.RoleAssistant JUndef (JV (JNum (3 # 5))) JUndef JUndef) <> None /\
  (QAPage.message_colour (fun _ => NNaN) (fun _ => NNaN)
     (QAPage.mkChat QAPage.RoleAssistant JUndef (JV (JNum (3 # 5))) JUndef JUndef) = Some "text-green-400" ->
   QAPage.message_colour (fun _ => NNaN) (fun _ => NNaN)
     (QAPage.mkChat QAPage.RoleAssistant JUndef (JV (JNum (9 # 10))) JUndef JUndef) = Some "text-green-400") /\
  (QAPage.message_colour (fun _ => NNaN) (fun _ => NNaN)
     (QAPage.mkChat QAPage.RoleAssistant JUndef (JV (JNum (9 # 10))) JUndef JUndef) = Some "text-red-400" ->
   QAPage.message_colour (fun _ => NNaN) (fun _ => NNaN)
     (QAPage.mkChat QAPage.RoleAssistant JUndef (JV (JNum (3 # 5))) JUndef JUndef) = Some "text-red-400").
Proof.
  apply (message_colour_monotone _ _ _ _ (3 # 5) (9 # 10)); try reflexivity.
  unfold Qle; cbn; lia.
Defined.

(** X8 (QA page): copying a second message less than two seconds after
    a first lets the first copy's timer clear the check mark early. The
    second message shows as copied until two seconds after the first
    copy, then nothing shows until its own timer fires. *)
Theorem copy_check_cleared_early a b t1 t2 T (Ht : t1 < t2 < t1 + 2000) :
  (t2 <= T < t1 + 2000 ->
     QAPage.copied_at T (QAPage.copyToClipboard t2 b (QAPage.copyToClipboard t1 a QAPage.copy_init)) = Some b) /\
  (t1 + 2000 <= T < t2 + 2000 ->
     QAPage.copied_at T (QAPage.copyToClipboard t2 b (QAPage.copyToClipboard t1 a QAPage.copy_init)) = None).
Proof.
  unfold QAPage.copied_at, QAPage.copyToClipboard, QAPage.advance. cbn.
  destruct (Z.leb_spec (t1 + 2000) t2); [lia|]. cbn.
  split; intros HT.
  - destruct (Z.leb_spec (t1 + 2000) T); [lia|]. reflexivity.
  - destruct (Z.leb_spec (t1 + 2000) T); [|lia].
    destruct (Z.leb_spec (t2 + 2000) T); [lia|]. reflexivity.
Qed.

Lemma copy_check_cleared_early_witness :
  0 < 1500 < 0 + 2000 /\
  (1500 <= 2500 < 0 + 2000 ->
     QAPage.copied_at 2500 (QAPage.copyToClipboard 1500 2 (QAPage.copyToClipboard 0 1 QAPage.copy_init)) = Some 2%nat) /\
  (0 + 2000 <= 2500 < 1500 + 2000 ->
     QAPage.copied_at 2500 (QAPage.copyToClipboard 1500 2 (QAPage.copyToClipboard 0 1 QAPage.copy_init)) = None).
Proof.
  split; [lia|]. apply copy_check_cleared_early. lia.
Defined.

(** X9 (providers): after [logout] a page reload restores no session. The
    token stays [null], the user stays [null] and loading ends. The
    stored theme survives logout and is reapplied ("dark" when none is
    stored). *)
Theorem logout_reload parse a dark0 :
  exists a', Providers.reload parse (Providers.a_store (Providers.logout a)) dark0 = Some a' /\
    Providers.a_token a' = None /\ Providers.a_user a' = JNull /\ Providers.a_loading a' = false /\
    Providers.a_theme a' =
      match Providers.st_get (Providers.a_store a) "theme" with
      | Some th => if String.eqb th "" then "dark" else th
      | None => "dark"
      end.
Proof.
  unfold Providers.reload, Providers.mount, Providers.page_load, Providers.logout.
  cbn [Providers.a_store]. st_simp. cbn [Providers.truthy_str andb].
  destruct (Providers.st_get (Providers.a_store a) "theme") as [th|]; cbn.
  - destruct (String.eqb th ""); cbn; eexists; repeat split.
  - eexists; repeat split.
Qed.

(** X10 (providers): a login followed by the [/auth/me] answer survives a
    reload. The stored token and user are restored and the refresh token
    stays stored. This holds for any answer that [JSON.stringify] and
    [JSON.parse] round-trip, including error bodies. *)
Theorem login_me_reload parse stringify t r u a dark0
  (Ht : t <> "") (Hs : stringify u <> "") (Hrt : parse (stringify u) = Some u) :
  exists a', Providers.reload parse
               (Providers.a_store (Providers.me_resolved stringify u (Providers.login t r a))) dark0 = Some a' /\
    Providers.a_token a' = Some t /\ Providers.a_user a' = u /\
    Providers.st_get (Providers.a_store a') "refresh_token" = Some r.
Proof.
  unfold Providers.reload, Providers.mount, Providers.page_load, Providers.me_resolved, Providers.login.
  cbn [Providers.a_store]. st_simp. cbn [Providers.truthy_str].
  apply String.eqb_neq in Ht. apply String.eqb_neq in Hs. rewrite Ht, Hs. cbn -[Providers.st_get Providers.st_set Providers.st_remove]. rewrite Hrt.
  destruct (Providers.st_get (Providers.a_store a) "theme") as [th|]; cbn -[Providers.st_get Providers.st_set Providers.st_remove];
    [destruct (String.eqb th "")|]; cbn -[Providers.st_get Providers.st_set Providers.st_remove]; eexists; (split; [reflexivity|]); cbn -[Providers.st_get Providers.st_set Providers.st_remove]; st_simp; repeat split.
Qed.

Lemma login_me_reload_witness :
  "tok" <> "" /\ "null" <> "" /\ (fun _ : string => Some JNull) "null" = Some JNull /\
  exists a', Providers.reload (fun _ => Some JNull)
               (Providers.a_store (Providers.me_resolved (fun _ => "null") JNull
                  (Providers.login "tok" "ref" (Providers.page_load [] true)))) true = Some a' /\
    Providers.a_token a' = Some "tok" /\ Providers.a_user a' = JNull /\
    Providers.st_get (Providers.a_store a') "refresh_token" = Some "ref".
Proof.
  split; [discriminate|]. split; [discriminate|]. split; [reflexivity|].
  apply (login_me_reload (fun _ => Some JNull) (fun _ => "null") "tok" "ref" JNull
           (Providers.page_load [] true) true); [discriminate | discriminate | reflexivity].
Defined.

(** X11 (providers): [login] stores the new tokens at once but keeps the
    previously stored user until [/auth/me] answers. A reload in between
    restores the new token together with the old user. *)
Theorem login_stale_user parse t r a dark0 old o
  (Ht : t <> "") (Hold : Providers.st_get (Providers.a_store a) "user" = Some old)
  (Hne : old <> "") (Hp : parse old = Some o) :
  exists a', Providers.reload parse (Providers.a_store (Providers.login t r a)) dark0 = Some a' /\
    Providers.a_token a' = Some t /\ Providers.a_user a' = o.
Proof.
  unfold Providers.reload, Providers.mount, Providers.page_load, Providers.login.
  cbn [Providers.a_store]. st_simp. rewrite Hold. cbn [Providers.truthy_str].
  apply String.eqb_neq in Ht. apply String.eqb_neq in Hne. rewrite Ht, Hne. cbn -[Providers.st_get Providers.st_set Providers.st_remove]. rewrite Hp.
  destruct (Providers.st_get (Providers.a_store a) "theme") as [th|]; cbn -[Providers.st_get Providers.st_set Providers.st_remove];
    [destruct (String.eqb th "")|]; cbn -[Providers.st_get Providers.st_set Providers.st_remove]; eexists; (split; [reflexivity|]); cbn -[Providers.st_get Providers.st_set Providers.st_remove]; repeat split.
Qed.

Lemma login_stale_user_witness :
  "new" <> "" /\ Providers.st_get [("user", "alice")] "user" = Some "alice" /\ "alice" <> "" /\
  (fun _ : string => Some (JStr "alice")) "alice" = Some (JStr "alice") /\
  exists a', Providers.reload (fun _ => Some (JStr "alice"))
               (Providers.a_store (Providers.login "new" "ref" (Providers.page_load [("user", "alice")] true)))
               true = Some a' /\
    Providers.a_token a' = Some "new" /\ Providers.a_user a' = JStr "alice".
Proof.
  split; [discriminate|]. split; [reflexivity|]. split; [discriminate|]. split; [reflexivity|].
  apply (login_stale_user (fun _ => Some (JStr "alice")) "new" "ref" (Providers.page_load [("user", "alice")] true)
           true "alice" (JStr "alice"));
    [discriminate | reflexivity | discriminate | reflexivity].
Defined.

(** X12 (providers): the mount effect throws exactly when both a
    non-empty [access_token] and a non-empty [user] are stored and the
    stored user is not valid JSON. *)
Theorem mount_throws_iff parse a :
  Providers.mount parse a = None <->
  exists t u, Providers.st_get (Providers.a_store a) "access_token" = Some t /\ t <> "" /\
              Providers.st_get (Providers.a_store a) "user" = Some u /\ u <> "" /\ parse u = None.
Proof.
  unfold Providers.mount. cbv zeta.
  destruct (Providers.st_get (Providers.a_store a) "access_token") as [t|];
  destruct (Providers.st_get (Providers.a_store a) "user") as [u|];
  cbn [Providers.truthy_str andb];
  [destruct (String.eqb_spec t ""); destruct (String.eqb_spec u ""); cbn [negb andb];
   [| | | destruct (parse u) eqn:Ep] | | | ];
  rewrite ?andb_false_r;
  (split; intros H;
   [ try (exfalso; revert H; cbn -[Providers.st_get]; discriminate)
   | try (exfalso; destruct H as (? & ? & E1 & ? & E2 & ? & E3); congruence) ]);
  [exists t, u; repeat split; assumption | reflexivity].
Qed.

(** X13 (providers): [toggleTheme] switches "light" to "dark" and any
    other theme to "light", so toggling twice returns to "light" or
    "dark". The new theme is stored: a reload reapplies it with the same
    [dark] class. *)
Theorem toggle_theme_reload parse a dark0 a'
  (H : Providers.reload parse (Providers.a_store (Providers.toggleTheme a)) dark0 = Some a') :
  Providers.a_theme a' = Providers.a_theme (Providers.toggleTheme a) /\
  Providers.a_dark a' = Providers.a_dark (Providers.toggleTheme a) /\
  Providers.a_theme (Providers.toggleTheme (Providers.toggleTheme a)) =
    (if String.eqb (Providers.a_theme a) "light" then "light" else "dark").
Proof.
  revert H. unfold Providers.reload, Providers.mount, Providers.page_load, Providers.toggleTheme.
  cbn [Providers.a_store Providers.a_theme Providers.a_dark]. cbv zeta. st_simp.
  destruct (String.eqb (Providers.a_theme a) "light"); cbn [Providers.truthy_str String.eqb negb];
  (destruct (Providers.truthy_str _ && Providers.truthy_str _);
   [destruct (Providers.st_get _ "user"); [destruct (parse _)|]|]);
  cbn; intros H; try discriminate; injection H as <-; cbn; auto.
Qed.

Lemma toggle_theme_reload_witness :
  Providers.reload (fun _ => None)
    (Providers.a_store (Providers.toggleTheme (Providers.page_load [] true))) true =
    Some (Providers.mkApp JNull None false "light" false [("theme", "light")]) /\
  Providers.a_theme (Providers.mkApp JNull None false "light" false [("theme", "light")]) =
    Providers.a_theme (Providers.toggleTheme (Providers.page_load [] true)) /\
  Providers.a_dark (Providers.mkApp JNull None false "light" false [("theme", "light")]) =
    Providers.a_dark (Providers.toggleTheme (Providers.page_load [] true)) /\
  Providers.a_theme (Providers.toggleTheme (Providers.toggleTheme (Providers.page_load [] true))) =
    (if String.eqb (Providers.a_theme (Providers.page_load [] true)) "light" then "light" else "dark").
Proof.
  split; [reflexivity|]. apply (toggle_theme_reload (fun _ => None) _ true). reflexivity.
Defined.

(** X14 (providers): after a reload that does not throw, loading has
    ended, the [dark] class is set exactly when the theme is "dark", and
    the stored data is unchanged. This holds whatever the class was
    before the effect ran. *)
Theorem reload_dark_class parse store dark0 a'
  (H : Providers.reload parse store dark0 = Some a') :
  Providers.a_dark a' = String.eqb (Providers.a_theme a') "dark" /\
  Providers.a_loading a' = false /\ Providers.a_store a' = store.
Proof.
  revert H. unfold Providers.reload, Providers.mount, Providers.page_load. cbv zeta. cbn [Providers.a_store].
  destruct (Providers.truthy_str _ && Providers.truthy_str _);
   [destruct (Providers.st_get _ "user"); [destruct (parse _)|]|];
  cbn -[Providers.st_get]; try discriminate;
  destruct (Providers.st_get store "theme") as [th|]; cbn [Providers.truthy_str];
  intros H; injection H as <-;
  repeat match goal with |- context [if ?b then _ else _] => destruct b end; cbn; auto.
Qed.

Lemma reload_dark_class_witness :
  Providers.reload (fun _ => None) [("theme", "light")] true =
    Some (Providers.mkApp JNull None false "light" false [("theme", "light")]) /\
  Providers.a_dark (Providers.mkApp JNull None false "light" false [("theme", "light")]) =
    String.eqb (Providers.a_theme (Providers.mkApp JNull None false "light" false [("theme", "light")])) "dark" /\
  Providers.a_loading (Providers.mkApp JNull None false "light" false [("theme", "light")]) = false /\
  Providers.a_store (Providers.mkApp JNull None false "light" false [("theme", "light")]) = [("theme", "light")].
Proof.
  split; [reflexivity|]. apply (reload_dark_class (fun _ => None) _ true). reflexivity.
Defined.

(** X15 (auth callback): an [error] parameter takes precedence. The page
    then never logs in and redirects to [/login?error=<error>], even when
    both tokens are present. Without an error it logs in and goes to
    [/dashboard] exactly when both tokens are non-empty, storing both;
    otherwise it goes back to [/login]. *)
Theorem auth_callback_routes get a :
  (forall e, get "error" = Some e -> e <> "" ->
     AuthCallback.callback_effect get a = (a, ("/login?error=" ++ e)%string)) /\
  (Providers.truthy_str (get "error") = false ->
   forall t r, get "access_token" = Some t -> get "refresh_token" = Some r -> t <> "" -> r <> "" ->
     AuthCallback.callback_effect get a = (Providers.login t r a, "/dashboard") /\
     Providers.st_get (Providers.a_store (Providers.login t r a)) "access_token" = Some t /\
     Providers.st_get (Providers.a_store (Providers.login t r a)) "refresh_token" = Some r) /\
  (Providers.truthy_str (get "error") = false ->
   Providers.truthy_str (get "access_token") = false \/ Providers.truthy_str (get "refresh_token") = false ->
     AuthCallback.callback_effect get a = (a, "/login")).
Proof.
  unfold AuthCallback.callback_effect, AuthCallback.auth_callback. split; [|split].
  - intros e He Hne. rewrite He. cbn [Providers.truthy_str].
    apply String.eqb_neq in Hne. rewrite Hne. reflexivity.
  - intros He t r Ha Hr Ht Hrn. rewrite He, Ha, Hr. cbn [Providers.truthy_str].
    apply String.eqb_neq in Ht. apply String.eqb_neq in Hrn. rewrite Ht, Hrn. cbn.
    split; [reflexivity|]. unfold Providers.login; cbn [Providers.a_store]. st_simp. auto.
  - intros He Hf. rewrite He.
    destruct (get "access_token") as [t|]; destruct (get "refresh_token") as [r|]; try reflexivity.
    destruct Hf as [Hf|Hf]; rewrite Hf; [reflexivity|]. rewrite andb_false_r. reflexivity.
Qed.

(** X16 (dashboard layout): at most one sidebar item is active. It is the
    one whose [href] equals the path exactly; a path below an item, such
    as a course page under [/dashboard/courses], activates none. *)
Theorem nav_active_unique p :
  (In p DashboardLayout.navHrefs -> DashboardLayout.active_items p = [p]) /\
  (~ In p DashboardLayout.navHrefs -> DashboardLayout.active_items p = []).
Proof.
  unfold DashboardLayout.active_items. split.
  - cbn [In DashboardLayout.navHrefs].
    intros H; repeat destruct H as [<-|H]; [reflexivity..|contradiction].
  - apply filter_eqb_absent.
Qed.

End FrontendProps.
